(** * Playground server: request handlers of the modern and the legacy API

    A shallow embedding of [setupRoutes] (the TypeScript routes of the
    modern API: search, create, update, [prepareTags]) and of the legacy
    route [GET /api/:id/:version] of [server/lib/routes.js].

    Handlers are written in a small promise monad: a chain runs on the
    relational store and gives the trace of its observable calls
    ([res.json], [next], logger, store, cache purge).  What lives outside
    the routes (the ORM, the HTTP framework, the legacy [data] module) is
    supplied by an environment record. *)

From Stdlib Require Import ZArith String Ascii List Bool Lia.
From stdpp Require Import base gmap strings list.

Set Warnings "-register-all".
Local Open Scope string_scope.
Local Open Scope Z_scope.

(** ** JavaScript values of a parsed JSON body

    Numbers are held as integers (the routes look at the type of a number,
    never at its fraction); an object lists its own properties, each key
    once. *)

Inductive JsVal : Type :=
| JUndefined
| JNull
| JBool (b : bool)
| JNum (n : Z)
| JStr (s : string)
| JArr (items : list JsVal)
| JObj (fields : list (string * JsVal)).

(** Errors a promise can be rejected with (or a call can throw). *)
Inductive Err : Type :=
| TypeError      (* property read on undefined or null *)
| StoreError     (* the relational store failed *)
| HeadersSent.   (* a response was written twice *)

Inductive Outcome (A : Type) : Type :=
| Resolved (a : A)
| Rejected (e : Err).
Arguments Resolved {A} a.
Arguments Rejected {A} e.

Module Js.

(** ToBoolean. *)
Definition truthy (v : JsVal) : bool :=
  match v with
  | JUndefined | JNull => false
  | JBool b => b
  | JNum n => negb (Z.eqb n 0)
  | JStr s => negb (String.eqb s "")
  | JArr _ | JObj _ => true
  end.

Definition typeof (v : JsVal) : string :=
  match v with
  | JUndefined => "undefined"
  | JNull => "object"
  | JBool _ => "boolean"
  | JNum _ => "number"
  | JStr _ => "string"
  | JArr _ | JObj _ => "object"
  end.

Fixpoint lookup_field (k : string) (fields : list (string * JsVal)) : JsVal :=
  match fields with
  | [] => JUndefined
  | (k', v) :: rest => if String.eqb k k' then v else lookup_field k rest
  end.

(** [s.length] of a string, in code units. *)
Definition str_length (s : string) : Z := Z.of_nat (String.length s).

(** [v.k]: reading a property throws on undefined and null, and gives
    undefined where the property does not exist. *)
Definition get_prop (v : JsVal) (k : string) : Outcome JsVal :=
  match v with
  | JUndefined | JNull => Rejected TypeError
  | JBool _ | JNum _ => Resolved JUndefined
  | JStr s => Resolved (if String.eqb k "length" then JNum (str_length s) else JUndefined)
  | JArr l => Resolved (if String.eqb k "length" then JNum (Z.of_nat (List.length l)) else JUndefined)
  | JObj fs => Resolved (lookup_field k fs)
  end.

(** A number or, when it is absent from the body, undefined. *)
Definition of_option_num (o : option Z) : JsVal :=
  match o with Some n => JNum n | None => JUndefined end.

(** *** [parseInt(s, 10)] *)

(** StrWhiteSpaceChar, for code units below 256. *)
Definition is_white (c : ascii) : bool :=
  let n := N_of_ascii c in
  ((9 <=? n) && (n <=? 13) || (n =? 32) || (n =? 160))%N.

Definition digit_of (c : ascii) : option Z :=
  let n := N_of_ascii c in
  if ((48 <=? n) && (n <=? 57))%N then Some (Z.of_N n - 48) else None.

Fixpoint skip_white (s : string) : string :=
  match s with
  | String c r => if is_white c then skip_white r else s
  | EmptyString => s
  end.

(** The value of the longest prefix of decimal digits, read after [acc];
    [seen] tells whether a digit was read. *)
Fixpoint read_digits (s : string) (seen : bool) (acc : Z) : option Z :=
  match s with
  | String c r =>
      match digit_of c with
      | Some d => read_digits r true (10 * acc + d)
      | None => if seen then Some acc else None
      end
  | EmptyString => if seen then Some acc else None
  end.

(** [None] is NaN: leading blanks are skipped, a sign is taken, and the
    digits that follow are read; there is no number without a digit. *)
Definition parseInt (s : string) : option Z :=
  match skip_white s with
  | String c r =>
      if Ascii.eqb c "-" then Z.opp <$> read_digits r false 0
      else if Ascii.eqb c "+" then read_digits r false 0
      else read_digits (String c r) false 0
  | EmptyString => None
  end.

Definition isNaN (n : option Z) : bool :=
  match n with None => true | Some _ => false end.

End Js.

(** ** Data model *)

(** The columns a create or an update writes. *)
Record Fields : Type := mkFields {
  f_name : JsVal;
  f_description : JsVal;
  f_contents : option string;
  f_author : JsVal;
  f_pixiVersion : JsVal;
  f_isPublic : JsVal;
  f_externalJs : JsVal
}.

Record Playground : Type := mkPlayground {
  id : Z;
  slug : string;
  fields : Fields;
  versionsCount : Z
}.

Record Tag : Type := mkTag { tag_id : Z }.

(** The playgrounds table by primary key, and the join table of tags. *)
Record Store : Type := mkStore {
  playgrounds : gmap Z Playground;
  playgroundTags : gmap Z (gset Z)
}.

Definition tags_of (st : Store) (pid : Z) : gset Z :=
  default ∅ (playgroundTags st !! pid).

(** ** Observable calls *)

(** A template literal: text and interpolated values. *)
Inductive Piece : Type :=
| PLit (s : string)
| PVal (v : JsVal)       (* ${v} *)
| PJson (v : JsVal).     (* ${JSON.stringify(v)} *)

Definition Template : Type := list Piece.

Inductive Body : Type :=
| BMsg (msg : Template)                  (* { msg } *)
| BPlayground (p : Playground)
| BList (l : list Playground)
| BUndefined
| BItem (item : JsVal) (contents : JsVal). (* { item, contents } *)

Inductive Level : Type := LError | LInfo | LDebug.

Inductive Event : Type :=
| ELog (lvl : Level) (msg : Template)
| EJson (code : Z) (body : Body)          (* res.json(code, body) *)
| ENext
| ESearch (q : JsVal)                     (* Playground.search *)
| ECreate (f : Fields)                    (* Playground.create *)
| EFindById (pk : option Z)               (* Playground.findById *)
| EUpdate (pk : Z) (f : Fields) (vc : Z)  (* value.update *)
| ESetTags (pk : Z) (tags : list Tag)     (* value.$set('tags', ...) *)
| EPurge (urls : list string)             (* purgeCacheForUrls *)
| EPurgeFailed
| EGetPlayground (id version : string)    (* data.getPlayground *)
| EBegin
| ECommit
| ERollback.

Module CODES.
Definition OK : Z := 200.
Definition CREATED : Z := 201.
Definition NOT_FOUND : Z := 404.
Definition UNPROCESSABLE_ENTITY : Z := 422.
Definition INTERNAL_SERVER_ERROR : Z := 500.
End CODES.

(** ** The promise monad *)

(** The world a handler acts on: the store, and whether the response of the
    request was already written. *)
Record World : Type := mkWorld {
  store : Store;
  sent : bool
}.

(** What running a promise chain gives: how it settled, the world it left,
    and the calls it made, oldest first. *)
Record Run (A : Type) : Type := mkRun {
  outcome : Outcome A;
  final : World;
  trace : list Event
}.
Arguments mkRun {A} _ _ _.
Arguments outcome {A} _.
Arguments final {A} _.
Arguments trace {A} _.

Definition M (A : Type) : Type := World -> Run A.

Definition ret {A} (a : A) : M A := fun w => mkRun (Resolved a) w [].

Definition throw {A} (e : Err) : M A := fun w => mkRun (Rejected e) w [].

(** [p.then(f)] *)
Definition then_ {A B} (m : M A) (f : A -> M B) : M B :=
  fun w =>
    match m w with
    | mkRun (Resolved a) w' t =>
        match f a w' with
        | mkRun o w'' t' => mkRun o w'' (t ++ t')
        end
    | mkRun (Rejected e) w' t => mkRun (Rejected e) w' t
    end.

(** [p.catch(h)] *)
Definition catch_ {A} (m : M A) (h : Err -> M A) : M A :=
  fun w =>
    match m w with
    | mkRun (Resolved a) w' t => mkRun (Resolved a) w' t
    | mkRun (Rejected e) w' t =>
        match h e w' with
        | mkRun o w'' t' => mkRun o w'' (t ++ t')
        end
    end.

Definition lift {A} (o : Outcome A) : M A := fun w => mkRun o w [].

Definition emit (e : Event) : M unit := fun w => mkRun (Resolved tt) w [e].

Definition get_store : M Store := fun w => mkRun (Resolved (store w)) w [].

Definition put_store (st : Store) : M unit :=
  fun w => mkRun (Resolved tt) (mkWorld st (sent w)) [].

Declare Scope promise_scope.
Delimit Scope promise_scope with promise.
Notation "'let*' x ':=' m 'in' k" := (then_ m (fun x => k))
  (at level 10, x pattern, m at level 100, k at level 200) : promise_scope.
Notation "m '>>' k" := (then_ m (fun _ => k))
  (at level 71, right associativity) : promise_scope.
Local Open Scope promise_scope.

(** A handler runs on a fresh request: no response was written yet. *)
Definition run {A} (m : M A) (st : Store) : Run A := m (mkWorld st false).

(** ** Environment: what the routes call but do not define *)

(** What a legacy [data.getPlayground] callback receives. *)
Inductive LegacyResult : Type :=
| LErr                                   (* err *)
| LMissing                               (* no err, no item *)
| LFound (item : JsVal) (contents : JsVal).

Record Env : Type := mkEnv {
  (** [Playground.search(q)]: the matching is the store's; the promise may
      resolve to no value at all. *)
  search_outcome : JsVal -> Store -> Outcome (option (list Playground));
  (** Which store calls reject. *)
  find_rejects : bool;
  create_rejects : bool;
  update_rejects : bool;
  set_rejects : bool;
  (** Identity given to a new row. *)
  fresh_id : Store -> Z;
  fresh_slug : Store -> string;
  (** Whether the framework throws when a response is written twice. *)
  resend_throws : bool;
  (** Whether the purge request, once issued, fails. *)
  purge_fails : bool;
  getPlayground_outcome : string -> string -> LegacyResult
}.

(** The response the caller receives: the first one written. *)
Fixpoint delivered (t : list Event) : option (Z * Body) :=
  match t with
  | [] => None
  | EJson code body :: _ => Some (code, body)
  | _ :: rest => delivered rest
  end.

Section Routes.

Context (env : Env).

(** *** Request and response objects *)

Definition log (lvl : Level) (msg : Template) : M unit := emit (ELog lvl msg).

Definition res_json (code : Z) (body : Body) : M unit :=
  fun w =>
    if resend_throws env && sent w
    then mkRun (Rejected HeadersSent) w []
    else mkRun (Resolved tt) (mkWorld (store w) true) [EJson code body].

Definition next : M unit := emit ENext.

(** *** The ORM *)

(** [db.transaction(cb)]: the writes of [cb] are committed when its
    promise resolves and undone when it rejects. *)
Definition db_transaction {A} (cb : M A) : M A :=
  fun w =>
    match cb w with
    | mkRun (Resolved a) w' t => mkRun (Resolved a) w' (EBegin :: t ++ [ECommit])
    | mkRun (Rejected e) w' t =>
        mkRun (Rejected e) (mkWorld (store w) (sent w')) (EBegin :: t ++ [ERollback])
    end.

Definition Playground_search (q : JsVal) : M (option (list Playground)) :=
  emit (ESearch q) >>
  let* st := get_store in
  lift (search_outcome env q st).

(** Modelled from the spec: the [Playground] model class is not part of
    the sources; [create] assigns a new id and a freshly generated slug,
    and versionsCount is initialized to 0. *)
Definition Playground_create (f : Fields) : M Playground :=
  emit (ECreate f) >>
  if create_rejects env then throw StoreError
  else
    let* st := get_store in
    let value := mkPlayground (fresh_id env st) (fresh_slug env st) f 0 in
    put_store (mkStore (<[id value := value]> (playgrounds st)) (playgroundTags st)) >>
    ret value.

Definition Playground_findById (pk : option Z) : M (option Playground) :=
  emit (EFindById pk) >>
  if find_rejects env then throw StoreError
  else
    let* st := get_store in
    ret (match pk with Some n => playgrounds st !! n | None => None end).

(** [value.update(fields)]: writes the given columns of the row of
    [value]; the instance keeps its id and its slug. *)
Definition instance_update (value : Playground) (f : Fields) (vc : Z) : M Playground :=
  emit (EUpdate (id value) f vc) >>
  if update_rejects env then throw StoreError
  else
    let* st := get_store in
    let value' := mkPlayground (id value) (slug value) f vc in
    put_store (mkStore (<[id value := value']> (playgrounds st)) (playgroundTags st)) >>
    ret value'.

(** [value.$set('tags', tags)]: the associations of [value] become
    exactly [tags]. *)
Definition instance_set_tags (value : Playground) (tags : list Tag) : M unit :=
  emit (ESetTags (id value) tags) >>
  if set_rejects env then throw StoreError
  else
    let* st := get_store in
    put_store (mkStore (playgrounds st)
                       (<[id value := list_to_set (tag_id <$> tags)]> (playgroundTags st))).

(** Modelled from the spec: [lib/cloudflare] is not part of the sources;
    the purge is requested and not awaited, its failure is logged and
    ignored. *)
Definition purgeCacheForUrls (urls : list string) : M unit :=
  emit (EPurge urls) >>
  if purge_fails env then emit EPurgeFailed else ret tt.

(** *** prepareTags *)

(** [t && typeof t.id === 'number'], with the id read when it holds. *)
Definition numeric_id (t : JsVal) : Outcome (option Z) :=
  if Js.truthy t then
    match Js.get_prop t "id" with
    | Resolved v =>
        Resolved (if String.eqb (Js.typeof v) "number"
                  then match v with JNum n => Some n | _ => None end
                  else None)
    | Rejected e => Rejected e
    end
  else Resolved None.

Definition invalid_tag_msg (t : JsVal) : Template :=
  [PLit "Invalid tag listed in create, skipping. Tag: "; PJson t].

(** The loop of [prepareTags], [tags] being the array built so far. *)
Fixpoint prepareTags_from (tagsData : list JsVal) (tags : list Tag) : M (list Tag) :=
  match tagsData with
  | [] => ret tags
  | t :: rest =>
      let* i := lift (numeric_id t) in
      match i with
      | Some n => prepareTags_from rest (tags ++ [mkTag n])
      | None => log LInfo (invalid_tag_msg t) >> prepareTags_from rest tags
      end
  end.

Definition prepareTags (tagsData : list JsVal) : M (list Tag) :=
  prepareTags_from tagsData [].

(** *** GET /api/playgrounds *)

Definition nonempty {A} (l : list A) : bool :=
  match l with [] => false | _ => true end.

(** [!values || !values.length] *)
Definition no_values (values : option (list Playground)) : bool :=
  match values with
  | None => true
  | Some l => negb (nonempty l)
  end.

Definition get_playgrounds (q : JsVal) : M unit :=
  if negb (Js.truthy q) then
    log LError [PLit "Failed to search playgrounds, query param is empty."] >>
    res_json CODES.UNPROCESSABLE_ENTITY
             (BMsg [PLit "Failed to search playgrounds, query param is empty."]) >>
    next
  else
    catch_
      (let* values := Playground_search q in
       (if no_values values then
          log LInfo [PLit "No playgrounds found during search."] >>
          res_json CODES.NOT_FOUND (BMsg [PLit "No playgrounds found during search."])
        else
          log LInfo [PLit "Loaded "; PVal (JNum (Z.of_nat (List.length (default [] values))));
                     PLit " playgrounds by searching."] >>
          res_json CODES.OK (BList (default [] values))) >>
       next)
      (fun err =>
         log LError [PLit "Failed to search playgrounds."] >>
         res_json CODES.INTERNAL_SERVER_ERROR
                  (BMsg [PLit "There was an error trying to load playgrounds during search."]) >>
         next).

(** *** Request bodies of POST and PUT

    The fields the handlers look into are typed as their callers send
    them: an id that is a number, contents that is a string, tags that is
    an array, each possibly absent.  A body that carries another kind of
    JSON value there (a number as contents, say) is outside this model.
    The other fields are passed on as they come. *)

Record ReqBody : Type := mkReqBody {
  b_id : option Z;
  b_name : JsVal;
  b_description : JsVal;
  b_contents : option string;
  b_author : JsVal;
  b_pixiVersion : JsVal;
  b_isPublic : JsVal;
  b_tags : option (list JsVal);
  b_externalJs : JsVal
}.

(** [req.body.tags || []] *)
Definition tagsData_of (b : ReqBody) : list JsVal := default [] (b_tags b).

(** [req.body.externalJs || []] *)
Definition externalJs_of (b : ReqBody) : JsVal :=
  if Js.truthy (b_externalJs b) then b_externalJs b else JArr [].

Definition fields_of (b : ReqBody) : Fields :=
  mkFields (b_name b) (b_description b) (b_contents b) (b_author b)
           (b_pixiVersion b) (b_isPublic b) (externalJs_of b).

(** [!contents || contents.length > 16777214] *)
Definition contents_invalid (contents : option string) : bool :=
  match contents with
  | None => true
  | Some s => negb (Js.truthy (JStr s)) || (16777214 <? Js.str_length s)
  end.

(** [!slug || !contents || slug.length !== 21 || contents.length > 16777214] *)
Definition put_invalid (url_slug : string) (contents : option string) : bool :=
  negb (Js.truthy (JStr url_slug))
  || match contents with
     | None => true
     | Some s =>
         negb (Js.truthy (JStr s))
         || negb (Js.str_length url_slug =? 21)
         || (16777214 <? Js.str_length s)
     end.

Definition save_failed : M unit :=
  res_json CODES.INTERNAL_SERVER_ERROR
           (BMsg [PLit "There was an error trying to save the playground."]) >>
  next.

(** *** POST /api/playground *)

Definition post_playground (b : ReqBody) : M unit :=
  let tagsData := tagsData_of b in
  if contents_invalid (b_contents b) then
    log LError [PLit "Failed to save playground, invalid params"] >>
    res_json CODES.UNPROCESSABLE_ENTITY (BMsg [PLit "Invalid params, 'contents' is empty."]) >>
    next
  else
    db_transaction
      (catch_
         (let* value :=
            (let* value := Playground_create (fields_of b) in
             log LInfo [PLit "Created a new playground: "; PVal (JStr (slug value))] >>
             if nonempty tagsData then
               let* tags := prepareTags tagsData in
               instance_set_tags value tags >>
               ret value
             else ret value) in
          res_json CODES.CREATED (BPlayground value) >>
          next)
         (fun err =>
            log LError [PLit "Failed to create playground."] >>
            save_failed)).

(** *** PUT /api/playground/:slug *)

Definition purge_urls (url_slug : string) : list string :=
  [ "https://pixiplayground.com/api/playground/" +:+ url_slug;
    "https://www.pixiplayground.com/api/playground/" +:+ url_slug;
    "http://pixiplayground.com/api/playground/" +:+ url_slug;
    "http://www.pixiplayground.com/api/playground/" +:+ url_slug ].

Definition mismatch_msg (pk : option Z) (url_slug got : string) : Template :=
  [PLit "Playground found with id: "; PVal (Js.of_option_num pk);
   PLit ", but has mismatched slug. Expected '"; PVal (JStr url_slug);
   PLit "', but got '"; PVal (JStr got); PLit "'."].

Definition not_found_msg (pk : option Z) : Template :=
  [PLit "No playground found with id: "; PVal (Js.of_option_num pk); PLit "."].

Definition body_of_value (value : option Playground) : Body :=
  match value with Some p => BPlayground p | None => BUndefined end.

Definition put_playground (url_slug : string) (b : ReqBody) : M unit :=
  let tagsData := tagsData_of b in
  if put_invalid url_slug (b_contents b) then
    log LError [PLit "Failed save playground, invalid params"] >>
    res_json CODES.UNPROCESSABLE_ENTITY
             (BMsg [PLit "Invalid params, either 'slug' or 'contents' is invalid."]) >>
    next
  else
    db_transaction
      (let* found := Playground_findById (b_id b) in
       match found with
       | None =>
           log LInfo (not_found_msg (b_id b)) >>
           res_json CODES.NOT_FOUND (BMsg (not_found_msg (b_id b))) >>
           next
       | Some value =>
           catch_
             (let* value :=
                (let* value := instance_update value (fields_of b) (versionsCount value + 1) in
                 if negb (String.eqb (slug value) url_slug) then
                   log LError (mismatch_msg (b_id b) url_slug (slug value)) >>
                   res_json CODES.INTERNAL_SERVER_ERROR
                            (BMsg (mismatch_msg (b_id b) url_slug (slug value))) >>
                   next >>
                   ret None
                 else
                   log LInfo [PLit "Updated playground with slug: "; PVal (JStr url_slug);
                              PLit ", added version: "; PVal (JNum (versionsCount value))] >>
                   if nonempty tagsData then
                     let* tags := prepareTags tagsData in
                     instance_set_tags value tags >>
                     ret (Some value)
                   else ret (Some value)) in
              purgeCacheForUrls (purge_urls url_slug) >>
              res_json CODES.OK (body_of_value value) >>
              next)
             (fun err =>
                log LError [PLit "Failed to save playground."] >>
                save_failed)
       end).

(** *** Legacy GET /api/:id/:version *)

Definition data_getPlayground (id version : string) : M LegacyResult :=
  emit (EGetPlayground id version) >>
  ret (getPlayground_outcome env id version).

Definition legacy_get_version (id version : string) : M unit :=
  let versionNum := Js.parseInt version in
  if Js.isNaN versionNum then
    log LError [PLit "Failed to get playground, version is NaN."] >>
    res_json CODES.UNPROCESSABLE_ENTITY
             (BMsg [PLit "Invalid version, "; PVal (JStr version); PLit " is not a number."]) >>
    next
  else
    let* r := data_getPlayground id version in
    match r with
    | LErr =>
        log LError [PLit "Failed to get playground."] >>
        res_json CODES.INTERNAL_SERVER_ERROR
                 (BMsg [PLit "There was an error trying to load playground ";
                        PVal (JStr id); PLit "@"; PVal (JStr version)])
    | LMissing =>
        log LInfo [PLit "No playground found with ID: "; PVal (JStr id);
                   PLit ", or no version "; PVal (JStr version); PLit " exists."] >>
        res_json CODES.NOT_FOUND
                 (BMsg [PLit "No playground found with ID: "; PVal (JStr id);
                        PLit ", or no version "; PVal (JStr version); PLit " exists."])
    | LFound item contents =>
        log LDebug [PLit "Loaded playground using ID: "; PVal (JStr id)] >>
        res_json CODES.OK (BItem item contents)
    end >>
    next.

End Routes.

(** ** Tag references, as the spec words them *)

(** A reference is well formed when it is present and carries a numeric id. *)
Definition well_formed_id (t : JsVal) : option Z :=
  match t with
  | JObj fs =>
      match Js.lookup_field "id" fs with
      | JNum n => Some n
      | _ => None
      end
  | _ => None
  end.

Definition well_formed (t : JsVal) : bool :=
  match well_formed_id t with Some _ => true | None => false end.

(** The well-formed subset of a supplied list, in order. *)
Fixpoint well_formed_ids (tagsData : list JsVal) : list Z :=
  match tagsData with
  | [] => []
  | t :: rest =>
      match well_formed_id t with
      | Some n => n :: well_formed_ids rest
      | None => well_formed_ids rest
      end
  end.

(** One log line per reference left out. *)
Fixpoint skipped_logs (tagsData : list JsVal) : list Event :=
  match tagsData with
  | [] => []
  | t :: rest =>
      match well_formed_id t with
      | Some _ => skipped_logs rest
      | None => ELog LInfo (invalid_tag_msg t) :: skipped_logs rest
      end
  end.


(** The association set a list of references stands for. *)
Definition tag_set (tagsData : list JsVal) : gset Z :=
  list_to_set (well_formed_ids tagsData).

(** ** Reading a trace *)

(** The argument of every purge request, in order. *)
Fixpoint purges (t : list Event) : list (list string) :=
  match t with
  | [] => []
  | EPurge urls :: rest => urls :: purges rest
  | _ :: rest => purges rest
  end.

(** Every purge request is issued between the opening of a transaction
    and its commit or rollback; [open] tells whether one is open. *)
Fixpoint purge_inside (open : bool) (t : list Event) : bool :=
  match t with
  | [] => true
  | EBegin :: rest => purge_inside true rest
  | ECommit :: rest | ERollback :: rest => purge_inside false rest
  | EPurge _ :: rest => open && purge_inside open rest
  | _ :: rest => purge_inside open rest
  end.

(** The store calls of a trace that look rows up. *)
Fixpoint lookups (t : list Event) : list Event :=
  match t with
  | [] => []
  | EFindById pk :: rest => EFindById pk :: lookups rest
  | ESearch q :: rest => ESearch q :: lookups rest
  | EGetPlayground i v :: rest => EGetPlayground i v :: lookups rest
  | _ :: rest => lookups rest
  end.


(** Whether the chain of the update handler reaches the purge: the request
    is valid, the row is found and updated, and the replacement of the
    tags, when one is attempted, resolves. *)
Definition purge_reached (env : Env) (st : Store) (url_slug : string) (b : ReqBody) : bool :=
  negb (put_invalid url_slug (b_contents b))
  && negb (find_rejects env)
  && match b_id b with
     | Some pk =>
         match playgrounds st !! pk with
         | Some value =>
             negb (update_rejects env)
             && (negb (String.eqb (slug value) url_slug)
                 || negb (nonempty (tagsData_of b))
                 || negb (set_rejects env))
         | None => false
         end
     | None => false
     end.

Definition with_purge_fails (fails : bool) (env : Env) : Env :=
  mkEnv (search_outcome env) (find_rejects env) (create_rejects env) (update_rejects env)
        (set_rejects env) (fresh_id env) (fresh_slug env) (resend_throws env) fails
        (getPlayground_outcome env).

(** ** Requests turned down by the validation *)

Definition search_rejected (st : Store) : Run unit :=
  mkRun (Resolved tt) (mkWorld st true)
        [ELog LError [PLit "Failed to search playgrounds, query param is empty."];
         EJson CODES.UNPROCESSABLE_ENTITY
               (BMsg [PLit "Failed to search playgrounds, query param is empty."]);
         ENext].

Definition post_rejected (st : Store) : Run unit :=
  mkRun (Resolved tt) (mkWorld st true)
        [ELog LError [PLit "Failed to save playground, invalid params"];
         EJson CODES.UNPROCESSABLE_ENTITY (BMsg [PLit "Invalid params, 'contents' is empty."]);
         ENext].

Definition put_rejected (st : Store) : Run unit :=
  mkRun (Resolved tt) (mkWorld st true)
        [ELog LError [PLit "Failed save playground, invalid params"];
         EJson CODES.UNPROCESSABLE_ENTITY
               (BMsg [PLit "Invalid params, either 'slug' or 'contents' is invalid."]);
         ENext].

Definition version_rejected (st : Store) (version : string) : Run unit :=
  mkRun (Resolved tt) (mkWorld st true)
        [ELog LError [PLit "Failed to get playground, version is NaN."];
         EJson CODES.UNPROCESSABLE_ENTITY
               (BMsg [PLit "Invalid version, "; PVal (JStr version); PLit " is not a number."]);
         ENext].

(** ** Versions, as the spec words them *)

Fixpoint all_white (s : string) : bool :=
  match s with
  | EmptyString => true
  | String c r => Js.is_white c && all_white r
  end.

(** A version is parseable as an integer when, after blanks and an
    optional sign, it goes on with a decimal digit. *)
Definition parseable_as_integer (version : string) : Prop :=
  exists ws sign d rest,
    version = ws +:+ sign +:+ String d rest
    /\ all_white ws = true
    /\ (sign = "" \/ sign = "+" \/ sign = "-")
    /\ is_Some (Js.digit_of d).

(** ** Sample requests *)

Fixpoint repeat_char (n : nat) (c : ascii) : string :=
  match n with
  | O => EmptyString
  | S n' => String c (repeat_char n' c)
  end.

Module Sample.

Definition slug_a : string := "AAAAAAAAAAAAAAAAAAAAA".
Definition slug_b : string := "BBBBBBBBBBBBBBBBBBBBB".

Definition env_ok : Env :=
  mkEnv (fun _ _ => Resolved (Some [])) false false false false
        (fun _ => 2) (fun _ => slug_b) false false (fun _ _ => LMissing).

(** The replacement of the tags is refused by the store. *)
Definition env_set_rejects : Env :=
  mkEnv (fun _ _ => Resolved (Some [])) false false false true
        (fun _ => 2) (fun _ => slug_b) false false (fun _ _ => LMissing).

Definition fields_v3 : Fields :=
  mkFields (JStr "demo") JUndefined (Some "console.log(1)") (JStr "a")
           JUndefined (JBool true) (JArr []).

(** One playground, updated three times, tagged with tag 5. *)
Definition playground_1 : Playground := mkPlayground 1 slug_a fields_v3 3.

Definition st_one : Store := mkStore {[ 1 := playground_1 ]} {[ 1 := {[ 5 ]} ]}.

Definition st_empty : Store := mkStore ∅ ∅.

Definition body_with (contents : string) (tags : option (list JsVal)) : ReqBody :=
  mkReqBody (Some 1) (JStr "demo") JUndefined (Some contents) (JStr "a")
            JUndefined (JBool true) tags JUndefined.

(** Two well-formed references and a malformed one. *)
Definition three_tags : list JsVal :=
  [JObj [("id", JNum 9)]; JNull; JObj [("id", JNum 7)]].

Definition body_tagged : ReqBody := body_with "console.log(2)" (Some [JObj [("id", JNum 9)]]).
Definition body_no_tags : ReqBody := body_with "console.log(2)" (Some []).

Definition contents_at_limit : string := repeat_char (Z.to_nat 16777214) "a".
Definition contents_over_limit : string := repeat_char (Z.to_nat 16777215) "a".

End Sample.

(** ** Stores and traces, for the frame properties *)

(** Every row sits under its own primary key. *)
Definition store_wf (st : Store) : Prop :=
  forall pk p, playgrounds st !! pk = Some p -> id p = pk.

(** [st'] is [st] but for the row and the tags of the playground [target]:
    it is well formed, has the rows of [st] with their slugs, and agrees
    with [st] on every other playground. *)
Definition touches_only (target : option Z) (st st' : Store) : Prop :=
  store_wf st'
  /\ dom (playgrounds st') = dom (playgrounds st)
  /\ (forall pk p, playgrounds st !! pk = Some p ->
                   exists p', playgrounds st' !! pk = Some p' /\ slug p' = slug p)
  /\ (forall pk, target <> Some pk ->
                 playgrounds st' !! pk = playgrounds st !! pk
                 /\ tags_of st' pk = tags_of st pk).

(** Every response written, in order. *)
Fixpoint responses (t : list Event) : list (Z * Body) :=
  match t with
  | [] => []
  | EJson code body :: rest => (code, body) :: responses rest
  | _ :: rest => responses rest
  end.

(** How many times [next] was called. *)
Fixpoint nexts (t : list Event) : nat :=
  match t with
  | [] => O
  | ENext :: rest => S (nexts rest)
  | _ :: rest => nexts rest
  end.

(** A tag, sent back as a reference. *)
Definition reference_of (t : Tag) : JsVal := JObj [("id", JNum (tag_id t))].

(** ** The routes without a transaction

    [GET /api/playground/:slug] of the modern API and the routes of the
    legacy API other than [GET /api/:id/:version] make one call and answer
    from its result.  They are written as the list of the calls they make;
    the callback of a legacy [data] function is taken to be called once. *)

Module Plain.

(** What a callback [(err, item, contents) => ...] receives. *)
Record CbArgs : Type := mkCbArgs {
  cb_err : JsVal;
  cb_item : JsVal;
  cb_contents : JsVal
}.

Inductive Reply : Type :=
| RMsg (msg : Template)                       (* { msg } *)
| RValue (value : JsVal)                      (* the instance found *)
| RItem (item : JsVal) (contents : JsVal).    (* { item, contents } *)

Inductive Call : Type :=
| CLog (lvl : Level) (msg : Template)
| CJson (code : Z) (reply : Reply)
| CNext
| CThrow (e : Err)
| CFindOne (slug : string)
| CGetPlayground (id : string) (version : JsVal)
| CCreatePlayground (name author isPublic isFeatured isOfficial contents : JsVal)
| CCreatePlaygroundVersion (id : string)
                           (name author isPublic isFeatured isOfficial contents : JsVal).

(** The legacy [data] module, and [Playground.findOne] with its tags. *)
Record Data : Type := mkData {
  findOne : string -> Outcome JsVal;
  getPlayground : string -> JsVal -> CbArgs;
  createPlayground : JsVal -> JsVal -> JsVal -> JsVal -> JsVal -> JsVal -> CbArgs;
  createPlaygroundVersion :
    string -> JsVal -> JsVal -> JsVal -> JsVal -> JsVal -> JsVal -> CbArgs
}.

(** The body of a legacy POST. *)
Record LegacyBody : Type := mkLegacyBody {
  l_name : JsVal;
  l_author : JsVal;
  l_isPublic : JsVal;
  l_contents : JsVal
}.

(** The response the caller receives. *)
Fixpoint reply_of (t : list Call) : option (Z * Reply) :=
  match t with
  | [] => None
  | CJson code reply :: _ => Some (code, reply)
  | _ :: rest => reply_of rest
  end.

Fixpoint count_replies (t : list Call) : nat :=
  match t with
  | [] => O
  | CJson _ _ :: rest => S (count_replies rest)
  | _ :: rest => count_replies rest
  end.

Fixpoint count_next (t : list Call) : nat :=
  match t with
  | [] => O
  | CNext :: rest => S (count_next rest)
  | _ :: rest => count_next rest
  end.

(** The calls to the store or to the [data] module. *)
Fixpoint data_calls (t : list Call) : list Call :=
  match t with
  | [] => []
  | CLog _ _ :: rest | CJson _ _ :: rest | CNext :: rest | CThrow _ :: rest => data_calls rest
  | c :: rest => c :: data_calls rest
  end.

Section Handlers.

Context (d : Data).

(** *** GET /api/playground/:slug *)

Definition get_playground (slug : string) : list Call :=
  CFindOne slug ::
  match findOne d slug with
  | Resolved value =>
      (if negb (Js.truthy value) then
         [CLog LInfo [PLit "No playground found with slug: "; PVal (JStr slug)];
          CJson CODES.NOT_FOUND
                (RMsg [PLit "No playground found with slug: "; PVal (JStr slug)])]
       else
         [CLog LInfo [PLit "Loaded playground using slug: "; PVal (JStr slug)];
          CJson CODES.OK (RValue value)])
      ++ [CNext]
  | Rejected err =>
      [CLog LError [PLit "Failed to get playground."];
       CJson CODES.INTERNAL_SERVER_ERROR
             (RMsg [PLit "There was an error trying to load playground ";
                    PVal (JStr slug); PLit "."]);
       CNext]
  end.

(** *** Legacy GET /api/:id *)

Definition legacy_get (id : string) : list Call :=
  CGetPlayground id (JNum 0) ::
  (let a := getPlayground d id (JNum 0) in
   if Js.truthy (cb_err a) then
     [CLog LError [PLit "Failed to get playground."];
      CJson CODES.INTERNAL_SERVER_ERROR
            (RMsg [PLit "There was an error trying to load playground ";
                   PVal (JStr id); PLit "@0"])]
   else if negb (Js.truthy (cb_item a)) then
     [CLog LInfo [PLit "Unable to find playground with ID: "; PVal (JStr id)];
      CJson CODES.NOT_FOUND
            (RMsg [PLit "Unable to find playground with ID: "; PVal (JStr id)])]
   else
     [CLog LDebug [PLit "Loaded playground using ID: "; PVal (JStr id)];
      CJson CODES.OK (RItem (cb_item a) (cb_contents a))])
  ++ [CNext].

(** *** Legacy POST /api and POST /api/:id *)

(** [!name || !author || !contents] *)
Definition legacy_invalid (b : LegacyBody) : bool :=
  negb (Js.truthy (l_name b)) || negb (Js.truthy (l_author b))
  || negb (Js.truthy (l_contents b)).

Definition legacy_rejected (first : string) : list Call :=
  [CLog LError [PLit first];
   CJson CODES.UNPROCESSABLE_ENTITY
         (RMsg [PLit "Invalid params, either name, author, or contents is empty."]);
   CNext].

Definition legacy_save_failed (first : string) : list Call :=
  [CLog LError [PLit first];
   CJson CODES.INTERNAL_SERVER_ERROR
         (RMsg [PLit "There was an error trying to save the playground."])].

Definition legacy_post (b : LegacyBody) : list Call :=
  if legacy_invalid b then legacy_rejected "Failed to save playground, invalid params"
  else
    CCreatePlayground (l_name b) (l_author b) (l_isPublic b) (JBool false) (JBool false)
                      (l_contents b) ::
    (let a := createPlayground d (l_name b) (l_author b) (l_isPublic b) (JBool false)
                               (JBool false) (l_contents b) in
     if Js.truthy (cb_err a) then
       legacy_save_failed "Failed to update playground." ++ [CNext]
     else
       match Js.get_prop (cb_item a) "id" with
       | Resolved item_id =>
           [CLog LDebug [PLit "Created a new playground: "; PVal item_id];
            CJson CODES.OK (RItem (cb_item a) (cb_contents a));
            CNext]
       | Rejected e => [CThrow e]
       end).

Definition legacy_post_version (id : string) (b : LegacyBody) : list Call :=
  if legacy_invalid b then legacy_rejected "Failed save playground, invalid params"
  else
    CCreatePlaygroundVersion id (l_name b) (l_author b) (l_isPublic b) (JBool false)
                             (JBool false) (l_contents b) ::
    (let a := createPlaygroundVersion d id (l_name b) (l_author b) (l_isPublic b)
                                      (JBool false) (JBool false) (l_contents b) in
     if Js.truthy (cb_err a) then
       legacy_save_failed "Failed to save playground." ++ [CNext]
     else if negb (Js.truthy (cb_item a)) then
       [CLog LInfo [PLit "No playground found with ID: "; PVal (JStr id); PLit "."];
        CJson CODES.NOT_FOUND
              (RMsg [PLit "No playground found with ID: "; PVal (JStr id); PLit "."]);
        CNext]
     else
       match Js.get_prop (cb_item a) "version" with
       | Resolved item_version =>
           [CLog LDebug [PLit "Created new playground version using ID: "; PVal (JStr id);
                         PLit ", added version "; PVal item_version];
            CJson CODES.OK (RItem (cb_item a) (cb_contents a));
            CNext]
       | Rejected e => [CThrow e]
       end).

End Handlers.

End Plain.

(** What a callback received, seen as the three cases the routes tell
    apart. *)
Definition agrees (a : Plain.CbArgs) (r : LegacyResult) : Prop :=
  match r with
  | LErr => Js.truthy (Plain.cb_err a) = true
  | LMissing => Js.truthy (Plain.cb_err a) = false /\ Js.truthy (Plain.cb_item a) = false
  | LFound item contents =>
      Js.truthy (Plain.cb_err a) = false /\ Js.truthy (Plain.cb_item a) = true
      /\ Plain.cb_item a = item /\ Plain.cb_contents a = contents
  end.

(** A response of either kind of route, as its status and, when it
    carries one, its item with the contents. *)
Definition seen_plain (r : option (Z * Plain.Reply)) : option (Z * option (JsVal * JsVal)) :=
  match r with
  | Some (code, Plain.RItem item contents) => Some (code, Some (item, contents))
  | Some (code, _) => Some (code, None)
  | None => None
  end.

Definition seen_promise (r : option (Z * Body)) : option (Z * option (JsVal * JsVal)) :=
  match r with
  | Some (code, BItem item contents) => Some (code, Some (item, contents))
  | Some (code, _) => Some (code, None)
  | None => None
  end.

(** * Properties *)

(** ** Evaluating a handler *)

Arguments prepareTags : simpl never.
Arguments purge_urls : simpl never.
Arguments mismatch_msg : simpl never.
Arguments not_found_msg : simpl never.
Arguments invalid_tag_msg : simpl never.
Arguments fields_of : simpl never.
Arguments tagsData_of : simpl never.
Arguments put_invalid : simpl never.
Arguments contents_invalid : simpl never.
Arguments Js.parseInt : simpl never.
Arguments Js.truthy : simpl never.
Arguments tag_set : simpl never.

Lemma numeric_id_well_formed t : numeric_id t = Resolved (well_formed_id t).
Proof.
  destruct t as [| |flag|n|s|l|fs]; unfold numeric_id, Js.truthy; simpl; try reflexivity.
  - destruct flag; reflexivity.
  - destruct (negb (Z.eqb n 0)); reflexivity.
  - destruct (negb (String.eqb s "")); reflexivity.
  - destruct (Js.lookup_field "id" fs); reflexivity.
Qed.

Lemma prepareTags_from_run tagsData :
  forall tags w,
    prepareTags_from tagsData tags w
    = mkRun (Resolved (tags ++ (mkTag <$> well_formed_ids tagsData))%list) w
            (skipped_logs tagsData).
Proof.
  induction tagsData as [|t rest IH]; intros tags w; simpl.
  - unfold ret. by rewrite app_nil_r.
  - unfold then_, lift at 1. rewrite numeric_id_well_formed.
    destruct (well_formed_id t) as [n|]; simpl.
    + rewrite IH. simpl. by rewrite <- app_assoc.
    + unfold log, emit, then_. rewrite IH. reflexivity.
Qed.

Lemma prepareTags_run tagsData w :
  prepareTags tagsData w
  = mkRun (Resolved (mkTag <$> well_formed_ids tagsData)) w (skipped_logs tagsData).
Proof. unfold prepareTags. by rewrite prepareTags_from_run. Qed.


Lemma tag_ids_of_tags (ids : list Z) : tag_id <$> (mkTag <$> ids) = ids.
Proof. induction ids as [|n ids IH]; csimpl; congruence. Qed.

(** The log lines of [prepareTags] are invisible to the readers of a trace. *)
Lemma delivered_skipped_logs tagsData t :
  delivered (skipped_logs tagsData ++ t) = delivered t.
Proof.
  induction tagsData as [|x rest IH]; simpl; [reflexivity|].
  destruct (well_formed_id x); simpl; exact IH.
Qed.

Lemma purges_skipped_logs tagsData t :
  purges (skipped_logs tagsData ++ t) = purges t.
Proof.
  induction tagsData as [|x rest IH]; simpl; [reflexivity|].
  destruct (well_formed_id x); simpl; exact IH.
Qed.

Lemma purge_inside_skipped_logs open tagsData t :
  purge_inside open (skipped_logs tagsData ++ t) = purge_inside open t.
Proof.
  induction tagsData as [|x rest IH]; simpl; [reflexivity|].
  destruct (well_formed_id x); simpl; exact IH.
Qed.

Lemma tags_of_replaced rows joins pk (s : gset Z) :
  tags_of (mkStore rows (<[pk := s]> joins)) pk = s.
Proof. unfold tags_of; simpl. by rewrite lookup_insert_eq. Qed.

Ltac use_known :=
  match goal with
  | H : ?c = true |- context [?c] => rewrite H
  | H : ?c = false |- context [?c] => rewrite H
  | H : ?c = Some _ |- context [?c] => rewrite H
  | H : ?c = None |- context [?c] => rewrite H
  | H : ?c = Resolved _ |- context [?c] => rewrite H
  | H : ?c = Rejected _ |- context [?c] => rewrite H
  end.

Ltac case_on c :=
  lazymatch c with
  | context [match ?d with Some _ => _ | None => _ end] => case_on d
  | context [if ?d then _ else _] => case_on d
  | negb ?d => case_on d
  | ?d && _ => case_on d
  | ?d || _ => case_on d
  | _ => destruct c eqn:?
  end.

Ltac case_flag :=
  match goal with
  | |- context [if ?c then _ else _] => case_on c
  | |- context [match ?c with Some _ => _ | None => _ end] => case_on c
  end.

Ltac unfold_promise :=
  unfold run, then_, catch_, ret, throw, lift, emit, log, next, res_json,
    save_failed, get_store, put_store, db_transaction, Playground_search,
    Playground_create, Playground_findById, instance_update, instance_set_tags,
    purgeCacheForUrls, data_getPlayground.

Ltac settle :=
  unfold_promise;
  repeat first
    [ progress cbn
    | rewrite prepareTags_run
    | rewrite andb_false_r
    | rewrite andb_true_r
    | rewrite <- app_assoc
    | rewrite delivered_skipped_logs
    | rewrite purges_skipped_logs
    | rewrite purge_inside_skipped_logs
    | use_known ].

Ltac by_cases := settle; repeat (case_flag; settle).

(** ** prepareTags *)






(** ** PUT /api/playground/:slug *)

(** C1: when the request is valid, the row is found by id and updated,
    and its slug is not the slug of the URL, the caller receives 500 with
    the mismatch message, and never 200. *)
Theorem put_slug_mismatch_reports_internal env st url_slug b pk value :
  put_invalid url_slug (b_contents b) = false ->
  find_rejects env = false ->
  b_id b = Some pk ->
  playgrounds st !! pk = Some value ->
  update_rejects env = false ->
  slug value <> url_slug ->
  let t := trace (run (put_playground env url_slug b) st) in
  delivered t
  = Some (CODES.INTERNAL_SERVER_ERROR, BMsg (mismatch_msg (b_id b) url_slug (slug value)))
  /\ forall body, delivered t <> Some (CODES.OK, body).
Proof.
  intros Hv Hf Hid Hl Hu Hs t. subst t.
  apply String.eqb_neq in Hs.
  unfold put_playground. by_cases.
  all: split; [reflexivity | discriminate].
Qed.

Lemma put_slug_mismatch_reports_internal_witness :
  let t := trace (run (put_playground Sample.env_ok Sample.slug_b Sample.body_tagged)
                      Sample.st_one) in
  delivered t
  = Some (CODES.INTERNAL_SERVER_ERROR,
          BMsg (mismatch_msg (Some 1) Sample.slug_b Sample.slug_a))
  /\ forall body, delivered t <> Some (CODES.OK, body).
Proof.
  apply (put_slug_mismatch_reports_internal Sample.env_ok Sample.st_one Sample.slug_b
           Sample.body_tagged 1 Sample.playground_1);
    [reflexivity | reflexivity | reflexivity | reflexivity | reflexivity | discriminate].
Defined.

(** C2: the update of playground 1 with one tag, when the store refuses the
    tag replacement: the caller is told 500 and the transaction commits the
    new version of the row without the new tags.  The same happens on
    creation (the row exists, untagged, after a 500), and, where the
    framework lets a second response pass, on a slug mismatch. *)
Theorem failed_step_leaves_partial_write :
  (let r := run (put_playground Sample.env_set_rejects Sample.slug_a Sample.body_tagged)
                Sample.st_one in
   delivered (trace r)
   = Some (CODES.INTERNAL_SERVER_ERROR,
           BMsg [PLit "There was an error trying to save the playground."])
   /\ List.last (trace r) ENext = ECommit
   /\ versionsCount <$> playgrounds Sample.st_one !! 1 = Some 3
   /\ versionsCount <$> playgrounds (store (final r)) !! 1 = Some 4
   /\ elements (tags_of (store (final r)) 1) = [5])
  /\ (let r := run (post_playground Sample.env_set_rejects Sample.body_tagged)
                   Sample.st_empty in
      delivered (trace r)
      = Some (CODES.INTERNAL_SERVER_ERROR,
              BMsg [PLit "There was an error trying to save the playground."])
      /\ List.last (trace r) ENext = ECommit
      /\ playgrounds Sample.st_empty !! 2 = None
      /\ versionsCount <$> playgrounds (store (final r)) !! 2 = Some 0
      /\ elements (tags_of (store (final r)) 2) = [])
  /\ (let r := run (put_playground Sample.env_ok Sample.slug_b Sample.body_tagged)
                   Sample.st_one in
      delivered (trace r)
      = Some (CODES.INTERNAL_SERVER_ERROR,
              BMsg (mismatch_msg (Some 1) Sample.slug_b Sample.slug_a))
      /\ List.last (trace r) ENext = ECommit
      /\ versionsCount <$> playgrounds (store (final r)) !! 1 = Some 4).
Proof. vm_compute. repeat split; reflexivity. Qed.

Lemma post_created env st b value :
  delivered (trace (run (post_playground env b) st))
  = Some (CODES.CREATED, BPlayground value) ->
  versionsCount value = 0
  /\ playgrounds (store (final (run (post_playground env b) st))) !! id value = Some value.
Proof.
  unfold post_playground. by_cases; intros H; try discriminate H.
  all: injection H as <-; cbn; split; [reflexivity | apply lookup_insert_eq].
Qed.

Lemma put_updated env st url_slug b value :
  delivered (trace (run (put_playground env url_slug b) st))
  = Some (CODES.OK, BPlayground value) ->
  exists pk old,
    b_id b = Some pk
    /\ playgrounds st !! pk = Some old
    /\ versionsCount value = versionsCount old + 1
    /\ playgrounds (store (final (run (put_playground env url_slug b) st))) !! id old
       = Some value.
Proof.
  unfold put_playground. by_cases; intros H; try discriminate H.
  all: injection H as <-; cbn; eexists _, _.
  all: repeat split; try eassumption; try reflexivity; apply lookup_insert_eq.
Qed.

(** C3: a created playground is returned, and stored, with versionsCount 0
    (the initial value is the model's, taken from the spec); an updated
    one is returned and stored with the versionsCount of the row found
    plus one; so the first update of a created playground returns 1. *)
Theorem versionsCount_zero_then_incremented env st :
  (forall b value,
      delivered (trace (run (post_playground env b) st))
      = Some (CODES.CREATED, BPlayground value) ->
      versionsCount value = 0
      /\ playgrounds (store (final (run (post_playground env b) st))) !! id value
         = Some value)
  /\ (forall url_slug b value,
         delivered (trace (run (put_playground env url_slug b) st))
         = Some (CODES.OK, BPlayground value) ->
         exists pk old,
           b_id b = Some pk
           /\ playgrounds st !! pk = Some old
           /\ versionsCount value = versionsCount old + 1
           /\ playgrounds (store (final (run (put_playground env url_slug b) st))) !! id old
              = Some value)
  /\ (forall b created url_slug b' updated,
         delivered (trace (run (post_playground env b) st))
         = Some (CODES.CREATED, BPlayground created) ->
         b_id b' = Some (id created) ->
         delivered (trace (run (put_playground env url_slug b')
                               (store (final (run (post_playground env b) st)))))
         = Some (CODES.OK, BPlayground updated) ->
         versionsCount updated = 1).
Proof.
  split; [|split].
  - intros b value. apply post_created.
  - intros url_slug b value. apply put_updated.
  - intros b created url_slug b' updated Hpost Hid Hput.
    apply post_created in Hpost as [Hzero Hstored].
    apply put_updated in Hput as (pk & old & Hpk & Hold & Hvc & _).
    rewrite Hid in Hpk. injection Hpk as <-.
    rewrite Hstored in Hold. injection Hold as <-. lia.
Qed.

Lemma versionsCount_zero_then_incremented_witness :
  (exists value,
      delivered (trace (run (post_playground Sample.env_ok Sample.body_tagged) Sample.st_empty))
      = Some (CODES.CREATED, BPlayground value)
      /\ versionsCount value = 0)
  /\ (exists value,
         delivered (trace (run (put_playground Sample.env_ok Sample.slug_a Sample.body_tagged)
                               Sample.st_one))
         = Some (CODES.OK, BPlayground value)
         /\ versionsCount value = versionsCount Sample.playground_1 + 1).
Proof.
  split.
  - eexists. split; [reflexivity|].
    apply (proj1 (versionsCount_zero_then_incremented Sample.env_ok Sample.st_empty)
                 Sample.body_tagged); reflexivity.
  - eexists. split; [reflexivity|].
    destruct (proj1 (proj2 (versionsCount_zero_then_incremented Sample.env_ok Sample.st_one))
                Sample.slug_a Sample.body_tagged _ eq_refl)
      as (pk & old & Hid & Hold & Hvc & _).
    injection Hid as <-. vm_compute in Hold. injection Hold as <-. exact Hvc.
Defined.

(** ** Tag associations *)

(** C4, as stated, fails: an update that supplies the empty list succeeds
    and leaves the playground tagged as before. *)
Lemma put_empty_tags_keeps_associations :
  let r := run (put_playground Sample.env_ok Sample.slug_a Sample.body_no_tags)
               Sample.st_one in
  b_tags Sample.body_no_tags = Some []
  /\ (exists value, delivered (trace r) = Some (CODES.OK, BPlayground value))
  /\ elements (tags_of Sample.st_one 1) = [5]
  /\ tags_of (store (final r)) 1 <> tag_set (tagsData_of Sample.body_no_tags).
Proof.
  cbv zeta. split; [reflexivity|]. split; [eexists; reflexivity|].
  split; [reflexivity|].
  intros H. apply (f_equal elements) in H. vm_compute in H. discriminate H.
Qed.

(** C4, amended: after a successful create or update that supplies a
    non-empty list, the associations of the playground are exactly the
    well-formed references of the list; with an empty or missing list the
    associations are left as they were. *)
Theorem tags_replaced_when_list_nonempty env st b :
  (forall url_slug value,
      delivered (trace (run (put_playground env url_slug b) st))
      = Some (CODES.OK, BPlayground value) ->
      tags_of (store (final (run (put_playground env url_slug b) st))) (id value)
      = if nonempty (tagsData_of b) then tag_set (tagsData_of b)
        else tags_of st (id value))
  /\ (forall value,
         delivered (trace (run (post_playground env b) st))
         = Some (CODES.CREATED, BPlayground value) ->
         tags_of (store (final (run (post_playground env b) st))) (id value)
         = if nonempty (tagsData_of b) then tag_set (tagsData_of b)
           else tags_of st (id value)).
Proof.
  split.
  - intros url_slug value. unfold put_playground. by_cases; intros H; try discriminate H.
    all: injection H as <-; cbn; try reflexivity.
    all: rewrite tags_of_replaced, tag_ids_of_tags; reflexivity.
  - intros value. unfold post_playground. by_cases; intros H; try discriminate H.
    all: injection H as <-; cbn; try reflexivity.
    all: rewrite tags_of_replaced, tag_ids_of_tags; reflexivity.
Qed.

Lemma tags_replaced_when_list_nonempty_witness :
  let body := Sample.body_with "console.log(3)" (Some Sample.three_tags) in
  tags_of (store (final (run (put_playground Sample.env_ok Sample.slug_a body) Sample.st_one))) 1
  = tag_set Sample.three_tags
  /\ tags_of (store (final (run (put_playground Sample.env_ok Sample.slug_a Sample.body_no_tags)
                                Sample.st_one))) 1
     = tags_of Sample.st_one 1.
Proof.
  split.
  - exact (proj1 (tags_replaced_when_list_nonempty Sample.env_ok Sample.st_one
                    (Sample.body_with "console.log(3)" (Some Sample.three_tags)))
                 Sample.slug_a _ eq_refl).
  - exact (proj1 (tags_replaced_when_list_nonempty Sample.env_ok Sample.st_one
                    Sample.body_no_tags)
                 Sample.slug_a _ eq_refl).
Defined.

(** ** Validation *)

Lemma truthy_str_length s : Js.truthy (JStr s) = negb (Js.str_length s =? 0).
Proof. destruct s; reflexivity. Qed.

Lemma length_repeat_char n c : String.length (repeat_char n c) = n.
Proof. induction n as [|n IH]; simpl; congruence. Qed.

Lemma str_length_repeat_char n c :
  0 <= n -> Js.str_length (repeat_char (Z.to_nat n) c) = n.
Proof.
  intros Hn. unfold Js.str_length. rewrite length_repeat_char. apply Z2Nat.id, Hn.
Qed.

Lemma contents_at_limit_length : Js.str_length Sample.contents_at_limit = 16777214.
Proof. apply str_length_repeat_char. discriminate. Qed.

Lemma contents_over_limit_length : Js.str_length Sample.contents_over_limit = 16777215.
Proof. apply str_length_repeat_char. discriminate. Qed.

Lemma contents_invalid_length s :
  contents_invalid (Some s) = (Js.str_length s =? 0) || (16777214 <? Js.str_length s).
Proof.
  unfold contents_invalid. rewrite truthy_str_length. by rewrite negb_involutive.
Qed.

Lemma put_invalid_length url_slug s :
  put_invalid url_slug (Some s)
  = negb (Js.str_length url_slug =? 21)
    || (Js.str_length s =? 0) || (16777214 <? Js.str_length s).
Proof.
  unfold put_invalid. rewrite !truthy_str_length, !negb_involutive.
  destruct (Js.str_length url_slug =? 0) eqn:E0; simpl.
  - apply Z.eqb_eq in E0. rewrite E0. reflexivity.
  - destruct (Js.str_length s =? 0), (Js.str_length url_slug =? 21); reflexivity.
Qed.

(** C5: contents of 16,777,214 code units pass the validation of create
    and of update (the first call is then the store's, and the answer is
    never 422); contents of 16,777,215 are answered 422 with no store call
    at all and the store as it was. *)
Theorem contents_size_limit env st b s :
  b_contents b = Some s ->
  (Js.str_length s = 16777214 ->
   (exists rest,
       trace (run (post_playground env b) st) = EBegin :: ECreate (fields_of b) :: rest)
   /\ (forall body,
          delivered (trace (run (post_playground env b) st))
          <> Some (CODES.UNPROCESSABLE_ENTITY, body))
   /\ (forall url_slug,
          Js.str_length url_slug = 21 ->
          (exists rest,
              trace (run (put_playground env url_slug b) st)
              = EBegin :: EFindById (b_id b) :: rest)
          /\ (forall body,
                 delivered (trace (run (put_playground env url_slug b) st))
                 <> Some (CODES.UNPROCESSABLE_ENTITY, body))))
  /\ (Js.str_length s = 16777215 ->
      run (post_playground env b) st = post_rejected st
      /\ (forall url_slug, run (put_playground env url_slug b) st = put_rejected st)).
Proof.
  intros Hc. split; intros Hlen.
  - assert (Hpost : contents_invalid (b_contents b) = false).
    { rewrite Hc, contents_invalid_length, Hlen. reflexivity. }
    assert (Hput : forall url_slug, Js.str_length url_slug = 21 ->
                                    put_invalid url_slug (b_contents b) = false).
    { intros url_slug H21. rewrite Hc, put_invalid_length, Hlen, H21. reflexivity. }
    split; [|split].
    + unfold post_playground. by_cases; eexists; reflexivity.
    + intros body. unfold post_playground. by_cases; discriminate.
    + intros url_slug H21. specialize (Hput url_slug H21). split.
      * unfold put_playground. by_cases; eexists; reflexivity.
      * intros body. unfold put_playground. by_cases; discriminate.
  - split.
    + unfold post_playground.
      assert (Hpost : contents_invalid (b_contents b) = true).
      { rewrite Hc, contents_invalid_length, Hlen. reflexivity. }
      by_cases. reflexivity.
    + intros url_slug. unfold put_playground.
      assert (Hput : put_invalid url_slug (b_contents b) = true).
      { rewrite Hc, put_invalid_length, Hlen. apply orb_true_r. }
      by_cases. reflexivity.
Qed.

Lemma contents_size_limit_witness :
  (exists rest,
      trace (run (post_playground Sample.env_ok (Sample.body_with Sample.contents_at_limit None))
                 Sample.st_empty)
      = EBegin :: ECreate (fields_of (Sample.body_with Sample.contents_at_limit None)) :: rest)
  /\ run (post_playground Sample.env_ok (Sample.body_with Sample.contents_over_limit None))
         Sample.st_empty
     = post_rejected Sample.st_empty.
Proof.
  split.
  - exact (proj1 (proj1 (contents_size_limit Sample.env_ok Sample.st_empty
                           (Sample.body_with Sample.contents_at_limit None)
                           Sample.contents_at_limit eq_refl)
                        contents_at_limit_length)).
  - exact (proj1 (proj2 (contents_size_limit Sample.env_ok Sample.st_empty
                           (Sample.body_with Sample.contents_over_limit None)
                           Sample.contents_over_limit eq_refl)
                        contents_over_limit_length)).
Defined.

(** ** GET /api/playgrounds *)

(** C7: a query that is empty or missing is answered 422 and the store is
    not queried; a query whose search resolves to no row is answered 404. *)
Theorem search_query_gate env st q :
  (Js.truthy q = false -> run (get_playgrounds env q) st = search_rejected st)
  /\ (Js.truthy q = true ->
      forall values,
        search_outcome env q st = Resolved values ->
        no_values values = true ->
        delivered (trace (run (get_playgrounds env q) st))
        = Some (CODES.NOT_FOUND, BMsg [PLit "No playgrounds found during search."])).
Proof.
  split.
  - intros Hq. unfold get_playgrounds. by_cases. reflexivity.
  - intros Hq values Hs Hv. unfold get_playgrounds. by_cases; reflexivity.
Qed.

Lemma search_query_gate_witness :
  run (get_playgrounds Sample.env_ok (JStr "")) Sample.st_one = search_rejected Sample.st_one
  /\ run (get_playgrounds Sample.env_ok JUndefined) Sample.st_one = search_rejected Sample.st_one
  /\ delivered (trace (run (get_playgrounds Sample.env_ok (JStr "pixi")) Sample.st_one))
     = Some (CODES.NOT_FOUND, BMsg [PLit "No playgrounds found during search."]).
Proof.
  split; [|split].
  - exact (proj1 (search_query_gate Sample.env_ok Sample.st_one (JStr "")) eq_refl).
  - exact (proj1 (search_query_gate Sample.env_ok Sample.st_one JUndefined) eq_refl).
  - exact (proj2 (search_query_gate Sample.env_ok Sample.st_one (JStr "pixi")) eq_refl
                 (Some []) eq_refl eq_refl).
Defined.

(** ** Legacy GET /api/:id/:version *)

Section ParseInt.

Local Open Scope string_scope.

Lemma digit_not_white d : is_Some (Js.digit_of d) -> Js.is_white d = false.
Proof.
  unfold Js.digit_of, Js.is_white. cbv zeta. intros [n H].
  destruct ((48 <=? N_of_ascii d)%N && (N_of_ascii d <=? 57)%N) eqn:E; [|discriminate].
  apply andb_true_iff in E as [E1 E2].
  apply N.leb_le in E1. apply N.leb_le in E2.
  repeat (apply orb_false_iff; split).
  - apply andb_false_iff. right. apply N.leb_gt. lia.
  - apply N.eqb_neq. lia.
  - apply N.eqb_neq. lia.
Qed.

Lemma digit_not_sign d :
  is_Some (Js.digit_of d) -> Ascii.eqb d "-" = false /\ Ascii.eqb d "+" = false.
Proof.
  intros [n H]. split; apply Ascii.eqb_neq; intros ->; vm_compute in H; discriminate.
Qed.

Lemma skip_white_split s :
  exists ws, s = ws +:+ Js.skip_white s /\ all_white ws = true.
Proof.
  induction s as [|c r IH]; simpl.
  - exists "". split; reflexivity.
  - destruct (Js.is_white c) eqn:E.
    + destruct IH as (ws & Hs & Hw). exists (String c ws). split.
      * change (String c r = String c (ws +:+ Js.skip_white r)). by f_equal.
      * simpl. by rewrite E, Hw.
    + exists "". split; reflexivity.
Qed.

Lemma skip_white_app ws u :
  all_white ws = true -> Js.skip_white (ws +:+ u) = Js.skip_white u.
Proof.
  induction ws as [|c r IH]; simpl; [reflexivity|].
  intros H. apply andb_true_iff in H as [Hc Hr]. rewrite Hc. exact (IH Hr).
Qed.

Lemma read_digits_seen s acc : is_Some (Js.read_digits s true acc).
Proof.
  revert acc. induction s as [|c r IH]; intros acc; simpl; [eauto|].
  destruct (Js.digit_of c); [apply IH | eauto].
Qed.

Lemma read_digits_unseen s :
  is_Some (Js.read_digits s false 0)
  <-> exists d rest, s = String d rest /\ is_Some (Js.digit_of d).
Proof.
  split.
  - destruct s as [|c r]; simpl; [intros [x H]; discriminate|].
    destruct (Js.digit_of c) eqn:E; [|intros [x H]; discriminate].
    intros _. exists c, r. rewrite E. eauto.
  - intros (d & rest & -> & [n Hd]). simpl. rewrite Hd. apply read_digits_seen.
Qed.

Lemma parseInt_parseable version :
  is_Some (Js.parseInt version) <-> parseable_as_integer version.
Proof.
  unfold Js.parseInt, parseable_as_integer. split.
  - intros H. destruct (skip_white_split version) as (ws & Hs & Hw).
    destruct (Js.skip_white version) as [|c r] eqn:Et; [destruct H; discriminate|].
    destruct (Ascii.eqb_spec c "-") as [->|Hm].
    { apply fmap_is_Some, read_digits_unseen in H as (d & rest & -> & Hd).
      exists ws, "-", d, rest. split; [exact Hs | auto]. }
    destruct (Ascii.eqb_spec c "+") as [->|Hp].
    { apply read_digits_unseen in H as (d & rest & -> & Hd).
      exists ws, "+", d, rest. split; [exact Hs | auto]. }
    apply read_digits_unseen in H as (d & rest & Heq & Hd).
    exists ws, "", d, rest. rewrite <- Heq. split; [exact Hs | auto].
  - intros (ws & sign & d & rest & -> & Hw & Hsign & Hd).
    rewrite (skip_white_app _ _ Hw).
    destruct (digit_not_sign d Hd) as [Hm Hp].
    pose proof (digit_not_white d Hd) as Hnw.
    assert (Hr : is_Some (Js.read_digits (String d rest) false 0))
      by (apply read_digits_unseen; eauto).
    destruct Hsign as [-> | [-> | ->]].
    + change ("" +:+ String d rest) with (String d rest).
      cbn [Js.skip_white]. rewrite Hnw, Hm, Hp. exact Hr.
    + change ("+" +:+ String d rest) with (String "+" (String d rest)).
      cbn [Js.skip_white].
      change (Js.is_white "+") with false. cbv iota.
      change (Ascii.eqb "+" "-") with false. change (Ascii.eqb "+" "+") with true.
      cbv iota. exact Hr.
    + change ("-" +:+ String d rest) with (String "-" (String d rest)).
      cbn [Js.skip_white].
      change (Js.is_white "-") with false. cbv iota.
      change (Ascii.eqb "-" "-") with true. cbv iota.
      apply fmap_is_Some. exact Hr.
Qed.

End ParseInt.

(** C8: the legacy route answers 422, with no call to the data module,
    exactly when [parseInt] of the version is NaN, which is when the
    version is not parseable as an integer; otherwise its first call is
    [getPlayground] with the id and the version of the path. *)
Theorem legacy_version_gate env st i version :
  let r := run (legacy_get_version env i version) st in
  (Js.parseInt version = None -> r = version_rejected st version)
  /\ (is_Some (Js.parseInt version) ->
      (exists rest, trace r = EGetPlayground i version :: rest)
      /\ lookups (trace r) = [EGetPlayground i version]
      /\ forall body, delivered (trace r) <> Some (CODES.UNPROCESSABLE_ENTITY, body))
  /\ (is_Some (Js.parseInt version) <-> parseable_as_integer version).
Proof.
  cbv zeta. split; [|split].
  - intros Hp. unfold legacy_get_version. rewrite Hp. by_cases. reflexivity.
  - intros [n Hp]. unfold legacy_get_version. rewrite Hp. by_cases.
    destruct (getPlayground_outcome env i version); by_cases.
    all: split; [eexists; reflexivity | split; [reflexivity | discriminate]].
  - apply parseInt_parseable.
Qed.

Lemma legacy_version_gate_witness :
  run (legacy_get_version Sample.env_ok "x1" "latest") Sample.st_one
  = version_rejected Sample.st_one "latest"
  /\ lookups (trace (run (legacy_get_version Sample.env_ok "x1" " 12abc") Sample.st_one))
     = [EGetPlayground "x1" " 12abc"].
Proof.
  split.
  - exact (proj1 (legacy_version_gate Sample.env_ok Sample.st_one "x1" "latest") eq_refl).
  - refine (proj1 (proj2 (proj1 (proj2 (legacy_version_gate Sample.env_ok Sample.st_one
                                          "x1" " 12abc")) _))).
    vm_compute. eauto.
Defined.

(** ** The slug of the URL on update *)

Lemma lookups_skipped_logs tagsData t :
  lookups (skipped_logs tagsData ++ t) = lookups t.
Proof.
  induction tagsData as [|x rest IH]; simpl; [reflexivity|].
  destruct (well_formed_id x); simpl; exact IH.
Qed.



(** ** Cache purge *)

(** C10, as stated, fails: the update of the row resolves (the new version
    is written and committed), the store then refuses the tag replacement,
    and no purge is requested. *)
Lemma put_update_resolved_without_purge :
  let r := run (put_playground Sample.env_set_rejects Sample.slug_a Sample.body_tagged)
               Sample.st_one in
  update_rejects Sample.env_set_rejects = false
  /\ In (EUpdate 1 (fields_of Sample.body_tagged) 4) (trace r)
  /\ versionsCount <$> playgrounds (store (final r)) !! 1 = Some 4
  /\ purges (trace r) = [].
Proof. vm_compute. repeat split; auto. Qed.

(** C10, amended: on update the purge is requested once, with the four
    URLs of the slug, when the request is valid, the row is found and
    updated, and the tag replacement, if one is attempted, resolves (none
    is attempted on a slug mismatch); otherwise it is not requested.  It is
    always requested inside the transaction, and whether it then fails
    changes neither the outcome, nor the store, nor the response. *)
Theorem purge_issued_when_chain_reaches_it env st url_slug b :
  let r := run (put_playground env url_slug b) st in
  purges (trace r)
  = (if purge_reached env st url_slug b then [purge_urls url_slug] else [])
  /\ purge_inside false (trace r) = true
  /\ (forall fails,
         let r' := run (put_playground (with_purge_fails fails env) url_slug b) st in
         outcome r' = outcome r
         /\ final r' = final r
         /\ delivered (trace r') = delivered (trace r)).
Proof.
  cbv zeta. unfold purge_reached, put_playground. split; [|split].
  - by_cases; reflexivity.
  - by_cases; reflexivity.
  - intros fails. by_cases; auto.
Qed.

(** * Further properties of the routes *)

Arguments Plain.legacy_invalid : simpl never.

Lemma responses_skipped_logs tagsData t :
  responses (skipped_logs tagsData ++ t) = responses t.
Proof.
  induction tagsData as [|x rest IH]; simpl; [reflexivity|].
  destruct (well_formed_id x); simpl; exact IH.
Qed.

Lemma nexts_skipped_logs tagsData t :
  nexts (skipped_logs tagsData ++ t) = nexts t.
Proof.
  induction tagsData as [|x rest IH]; simpl; [reflexivity|].
  destruct (well_formed_id x); simpl; exact IH.
Qed.

Ltac by_cases' :=
  by_cases; settle; settle;
  repeat first [ rewrite responses_skipped_logs | rewrite nexts_skipped_logs
               | rewrite lookups_skipped_logs | progress cbn ].

(** ** PUT /api/playground/:slug, path by path *)

(** X1: a valid update whose id names no row (or whose body has no id) is
    answered 404 inside a transaction that commits nothing: the row is
    looked up once, nothing is updated, tagged or purged, and the store is
    as it was. *)
Theorem put_unknown_id_answers_404 env st url_slug b :
  put_invalid url_slug (b_contents b) = false ->
  find_rejects env = false ->
  (forall pk, b_id b = Some pk -> playgrounds st !! pk = None) ->
  run (put_playground env url_slug b) st
  = mkRun (Resolved tt) (mkWorld st true)
          [EBegin; EFindById (b_id b);
           ELog LInfo (not_found_msg (b_id b));
           EJson CODES.NOT_FOUND (BMsg (not_found_msg (b_id b)));
           ENext; ECommit].
Proof.
  intros Hv Hf Hnone. unfold put_playground. settle.
  destruct (b_id b) as [pk|]; [rewrite (Hnone pk eq_refl)|]; settle; reflexivity.
Qed.

Lemma put_unknown_id_answers_404_witness :
  delivered (trace (run (put_playground Sample.env_ok Sample.slug_a Sample.body_tagged)
                        Sample.st_empty))
  = Some (CODES.NOT_FOUND, BMsg (not_found_msg (Some 1))).
Proof.
  rewrite (put_unknown_id_answers_404 Sample.env_ok Sample.st_empty Sample.slug_a
             Sample.body_tagged eq_refl eq_refl (fun pk _ => lookup_empty pk)).
  reflexivity.
Defined.



(** X3: when the store refuses the update of the row, the caller is told
    500 and the store is as it was: no tag is replaced, no purge is
    requested. *)
Theorem put_update_rejected_changes_nothing env st url_slug b pk value :
  put_invalid url_slug (b_contents b) = false ->
  find_rejects env = false ->
  b_id b = Some pk ->
  playgrounds st !! pk = Some value ->
  update_rejects env = true ->
  run (put_playground env url_slug b) st
  = mkRun (Resolved tt) (mkWorld st true)
          [EBegin; EFindById (Some pk);
           EUpdate (id value) (fields_of b) (versionsCount value + 1);
           ELog LError [PLit "Failed to save playground."];
           EJson CODES.INTERNAL_SERVER_ERROR
                 (BMsg [PLit "There was an error trying to save the playground."]);
           ENext; ECommit].
Proof.
  intros Hv Hf Hid Hl Hu. unfold put_playground. by_cases'. reflexivity.
Qed.

Lemma put_update_rejected_changes_nothing_witness :
  let env := mkEnv (fun _ _ => Resolved None) false false true false
                   (fun _ => 2) (fun _ => Sample.slug_b) false false (fun _ _ => LErr) in
  final (run (put_playground env Sample.slug_a Sample.body_tagged) Sample.st_one)
  = mkWorld Sample.st_one true.
Proof.
  cbv zeta.
  rewrite (put_update_rejected_changes_nothing
             (mkEnv (fun _ _ => Resolved None) false false true false
                    (fun _ => 2) (fun _ => Sample.slug_b) false false (fun _ _ => LErr))
             Sample.st_one Sample.slug_a Sample.body_tagged 1 Sample.playground_1
             eq_refl eq_refl eq_refl eq_refl eq_refl).
  reflexivity.
Defined.

(** X4: a valid update of a row found under the slug of the URL, with a
    store that accepts it, is answered 200 with the row as stored: the id
    and the slug found, the fields of the request, the count plus one; one
    purge is requested and the transaction commits. *)
Theorem put_success env st url_slug b pk value :
  put_invalid url_slug (b_contents b) = false ->
  find_rejects env = false ->
  b_id b = Some pk ->
  playgrounds st !! pk = Some value ->
  update_rejects env = false ->
  slug value = url_slug ->
  (nonempty (tagsData_of b) = true -> set_rejects env = false) ->
  let r := run (put_playground env url_slug b) st in
  let value' := mkPlayground (id value) url_slug (fields_of b) (versionsCount value + 1) in
  outcome r = Resolved tt
  /\ responses (trace r) = [(CODES.OK, BPlayground value')]
  /\ nexts (trace r) = 1%nat
  /\ purges (trace r) = [purge_urls url_slug]
  /\ playgrounds (store (final r)) = <[id value := value']> (playgrounds st).
Proof.
  intros Hv Hf Hid Hl Hu Hs Hset. cbv zeta.
  assert (Heq : String.eqb (slug value) url_slug = true) by (by apply String.eqb_eq).
  subst url_slug. unfold put_playground.
  destruct (nonempty (tagsData_of b)) eqn:Hn.
  - specialize (Hset eq_refl). by_cases'; repeat split; reflexivity.
  - by_cases'; repeat split; reflexivity.
Qed.

Lemma put_success_witness :
  responses (trace (run (put_playground Sample.env_ok Sample.slug_a Sample.body_tagged)
                        Sample.st_one))
  = [(CODES.OK,
      BPlayground (mkPlayground 1 Sample.slug_a (fields_of Sample.body_tagged) 4))].
Proof.
  exact (proj1 (proj2 (put_success Sample.env_ok Sample.st_one Sample.slug_a Sample.body_tagged
                         1 Sample.playground_1 eq_refl eq_refl eq_refl eq_refl eq_refl eq_refl
                         (fun _ => eq_refl)))).
Defined.

(** X5: on a slug mismatch the update is already written when the
    mismatch is seen.  Where the framework lets a second response pass,
    the handler writes 500 and then 200 with no body, calls [next] twice
    and commits the update; where it throws, the handler's own [catch]
    throws too, the transaction rolls back and the store is as it was. *)
Theorem put_mismatch_by_framework env st url_slug b pk value :
  put_invalid url_slug (b_contents b) = false ->
  find_rejects env = false ->
  b_id b = Some pk ->
  playgrounds st !! pk = Some value ->
  update_rejects env = false ->
  slug value <> url_slug ->
  let r := run (put_playground env url_slug b) st in
  let value' := mkPlayground (id value) (slug value) (fields_of b) (versionsCount value + 1) in
  (resend_throws env = false ->
   outcome r = Resolved tt
   /\ responses (trace r)
      = [(CODES.INTERNAL_SERVER_ERROR, BMsg (mismatch_msg (b_id b) url_slug (slug value)));
         (CODES.OK, BUndefined)]
   /\ nexts (trace r) = 2%nat
   /\ store (final r) = mkStore (<[id value := value']> (playgrounds st)) (playgroundTags st))
  /\ (resend_throws env = true ->
      outcome r = Rejected HeadersSent
      /\ responses (trace r)
         = [(CODES.INTERNAL_SERVER_ERROR, BMsg (mismatch_msg (b_id b) url_slug (slug value)))]
      /\ nexts (trace r) = 1%nat
      /\ store (final r) = st).
Proof.
  intros Hv Hf Hid Hl Hu Hs. cbv zeta.
  apply String.eqb_neq in Hs. unfold put_playground.
  split; intros Hr; by_cases'; repeat split; reflexivity.
Qed.

Lemma put_mismatch_by_framework_witness :
  let throwing := mkEnv (fun _ _ => Resolved None) false false false false
                        (fun _ => 2) (fun _ => Sample.slug_b) true false (fun _ _ => LErr) in
  nexts (trace (run (put_playground Sample.env_ok Sample.slug_b Sample.body_tagged)
                    Sample.st_one)) = 2%nat
  /\ store (final (run (put_playground throwing Sample.slug_b Sample.body_tagged)
                       Sample.st_one)) = Sample.st_one.
Proof.
  split.
  - exact (proj1 (proj2 (proj2 (proj1 (put_mismatch_by_framework Sample.env_ok Sample.st_one
             Sample.slug_b Sample.body_tagged 1 Sample.playground_1
             eq_refl eq_refl eq_refl eq_refl eq_refl ltac:(discriminate)) eq_refl)))).
  - exact (proj2 (proj2 (proj2 (proj2 (put_mismatch_by_framework
             (mkEnv (fun _ _ => Resolved None) false false false false
                    (fun _ => 2) (fun _ => Sample.slug_b) true false (fun _ _ => LErr))
             Sample.st_one Sample.slug_b Sample.body_tagged 1 Sample.playground_1
             eq_refl eq_refl eq_refl eq_refl eq_refl ltac:(discriminate)) eq_refl)))).
Defined.

(** ** What an update leaves alone *)

Lemma touches_only_refl target st : store_wf st -> touches_only target st st.
Proof. intros Hwf. repeat split; eauto. Qed.

Lemma touches_only_update rows joins joins' pk value f vc :
  store_wf (mkStore rows joins) ->
  rows !! pk = Some value ->
  (forall k, k <> pk -> joins' !! k = joins !! k) ->
  touches_only (Some pk) (mkStore rows joins)
               (mkStore (<[id value := mkPlayground (id value) (slug value) f vc]> rows) joins').
Proof.
  intros Hwf Hl Hj. pose proof (Hwf pk value Hl) as Hk. cbn in Hk. rewrite Hk.
  split; [|split; [|split]]; cbn.
  - intros k p. cbn. rewrite lookup_insert.
    destruct (decide (pk = k)) as [<-|Hne]; [|apply Hwf].
    intros H. injection H as <-. reflexivity.
  - apply dom_insert_lookup_L. eauto.
  - intros k p Hp. rewrite lookup_insert.
    destruct (decide (pk = k)) as [<-|Hne]; [|eauto].
    eexists. split; [reflexivity|]. cbn. congruence.
  - intros k Hne. assert (k <> pk) by congruence.
    unfold tags_of; cbn. rewrite lookup_insert_ne by congruence.
    rewrite Hj by assumption. split; reflexivity.
Qed.

(** X6: whatever the store and the framework do, an update keeps a
    well-formed store well formed, creates and deletes no row, leaves the
    slug of every row as it was, and touches neither the row nor the tags
    of any playground other than the one named by the id of the body. *)
Theorem put_touches_one_playground env st url_slug b :
  store_wf st ->
  let st' := store (final (run (put_playground env url_slug b) st)) in
  store_wf st'
  /\ dom (playgrounds st') = dom (playgrounds st)
  /\ (forall pk p, playgrounds st !! pk = Some p ->
                   exists p', playgrounds st' !! pk = Some p' /\ slug p' = slug p)
  /\ (forall pk, b_id b <> Some pk ->
                 playgrounds st' !! pk = playgrounds st !! pk
                 /\ tags_of st' pk = tags_of st pk).
Proof.
  intros Hwf. cbv zeta.
  change (touches_only (b_id b) st
                       (store (final (run (put_playground env url_slug b) st)))).
  destruct st as [rows joins]. unfold put_playground.
  by_cases'; try (apply touches_only_refl; exact Hwf).
  all: apply touches_only_update; try assumption.
  all: intros k Hk.
  all: match goal with
       | H : _ !! ?z = Some ?p |- _ => pose proof (Hwf z p H) as Hi; cbn in Hi
       end.
  all: rewrite ?lookup_insert_ne by congruence; reflexivity.
Qed.

Lemma put_touches_one_playground_witness :
  store_wf (store (final (run (put_playground Sample.env_ok Sample.slug_a Sample.body_tagged)
                              Sample.st_one))).
Proof.
  refine (proj1 (put_touches_one_playground Sample.env_ok Sample.st_one Sample.slug_a
                   Sample.body_tagged _)).
  intros pk p. unfold Sample.st_one. cbn. rewrite lookup_singleton.
  destruct (decide (1 = pk)) as [<-|]; [|discriminate].
  intros H. injection H as <-. reflexivity.
Defined.

(** ** POST /api/playground, path by path *)

(** X7: a valid create that the store accepts is answered 201 with the new
    row as stored: the id and the slug the store gives it, the fields of
    the request, versionsCount 0; the references of the request, when
    there are any, become its tags; no purge is requested. *)
Theorem post_success env st b :
  contents_invalid (b_contents b) = false ->
  create_rejects env = false ->
  (nonempty (tagsData_of b) = true -> set_rejects env = false) ->
  let r := run (post_playground env b) st in
  let value := mkPlayground (fresh_id env st) (fresh_slug env st) (fields_of b) 0 in
  outcome r = Resolved tt
  /\ responses (trace r) = [(CODES.CREATED, BPlayground value)]
  /\ nexts (trace r) = 1%nat
  /\ purges (trace r) = []
  /\ playgrounds (store (final r)) = <[fresh_id env st := value]> (playgrounds st)
  /\ tags_of (store (final r)) (fresh_id env st)
     = if nonempty (tagsData_of b) then tag_set (tagsData_of b)
       else tags_of st (fresh_id env st).
Proof.
  intros Hv Hc Hset. cbv zeta. unfold post_playground.
  destruct (nonempty (tagsData_of b)) eqn:Hn.
  - specialize (Hset eq_refl). by_cases'. repeat split; try reflexivity.
    rewrite tags_of_replaced, tag_ids_of_tags. reflexivity.
  - by_cases'. repeat split; reflexivity.
Qed.

Lemma post_success_witness :
  responses (trace (run (post_playground Sample.env_ok Sample.body_tagged) Sample.st_one))
  = [(CODES.CREATED,
      BPlayground (mkPlayground 2 Sample.slug_b (fields_of Sample.body_tagged) 0))].
Proof.
  exact (proj1 (proj2 (post_success Sample.env_ok Sample.st_one Sample.body_tagged
                         eq_refl eq_refl (fun _ => eq_refl)))).
Defined.

(** X8: when the store refuses the new row, the caller is told 500 and the
    store is as it was. *)
Theorem post_create_rejected_changes_nothing env st b :
  contents_invalid (b_contents b) = false ->
  create_rejects env = true ->
  run (post_playground env b) st
  = mkRun (Resolved tt) (mkWorld st true)
          [EBegin; ECreate (fields_of b);
           ELog LError [PLit "Failed to create playground."];
           EJson CODES.INTERNAL_SERVER_ERROR
                 (BMsg [PLit "There was an error trying to save the playground."]);
           ENext; ECommit].
Proof.
  intros Hv Hc. unfold post_playground. by_cases'. reflexivity.
Qed.

Lemma post_create_rejected_changes_nothing_witness :
  let env := mkEnv (fun _ _ => Resolved None) false true false false
                   (fun _ => 2) (fun _ => Sample.slug_b) false false (fun _ _ => LErr) in
  final (run (post_playground env Sample.body_tagged) Sample.st_one)
  = mkWorld Sample.st_one true.
Proof.
  cbv zeta.
  rewrite (post_create_rejected_changes_nothing
             (mkEnv (fun _ _ => Resolved None) false true false false
                    (fun _ => 2) (fun _ => Sample.slug_b) false false (fun _ _ => LErr))
             Sample.st_one Sample.body_tagged eq_refl eq_refl).
  reflexivity.
Defined.


(** X10: when the store accepts the row and then refuses the tags, the
    caller is told 500 and the transaction commits all the same: after an
    update the row is stored with the new fields and count while its tags
    are the old ones; after a create the row exists, with the tags the
    store had under its id. *)
Theorem tags_rejected_row_committed env st b :
  nonempty (tagsData_of b) = true ->
  set_rejects env = true ->
  (forall url_slug pk value,
      put_invalid url_slug (b_contents b) = false ->
      find_rejects env = false ->
      b_id b = Some pk ->
      playgrounds st !! pk = Some value ->
      update_rejects env = false ->
      slug value = url_slug ->
      let r := run (put_playground env url_slug b) st in
      outcome r = Resolved tt
      /\ responses (trace r)
         = [(CODES.INTERNAL_SERVER_ERROR,
             BMsg [PLit "There was an error trying to save the playground."])]
      /\ purges (trace r) = []
      /\ store (final r)
         = mkStore (<[id value := mkPlayground (id value) (slug value) (fields_of b)
                                               (versionsCount value + 1)]> (playgrounds st))
                   (playgroundTags st))
  /\ (contents_invalid (b_contents b) = false ->
      create_rejects env = false ->
      let r := run (post_playground env b) st in
      outcome r = Resolved tt
      /\ responses (trace r)
         = [(CODES.INTERNAL_SERVER_ERROR,
             BMsg [PLit "There was an error trying to save the playground."])]
      /\ store (final r)
         = mkStore (<[fresh_id env st := mkPlayground (fresh_id env st) (fresh_slug env st)
                                                      (fields_of b) 0]> (playgrounds st))
                   (playgroundTags st)).
Proof.
  intros Hn Hset. split.
  - intros url_slug pk value Hv Hf Hid Hl Hu Hs. cbv zeta.
    assert (Heq : String.eqb (slug value) url_slug = true) by (by apply String.eqb_eq).
    unfold put_playground. by_cases'. repeat split; reflexivity.
  - intros Hv Hc. cbv zeta. unfold post_playground. by_cases'. repeat split; reflexivity.
Qed.

Lemma tags_rejected_row_committed_witness :
  store (final (run (post_playground Sample.env_set_rejects Sample.body_tagged)
                    Sample.st_empty))
  = mkStore (<[2 := mkPlayground 2 Sample.slug_b (fields_of Sample.body_tagged) 0]> ∅) ∅.
Proof.
  exact (proj2 (proj2 (proj2 (tags_rejected_row_committed Sample.env_set_rejects Sample.st_empty
                                Sample.body_tagged eq_refl eq_refl) eq_refl eq_refl))).
Defined.

(** ** GET /api/playgrounds *)

(** X11: a search never writes to the store; whatever the store answers
    it writes one response and calls [next] once; it queries the store
    once, with the query as given, unless the query is empty. *)
Theorem search_reads_only env st q :
  let r := run (get_playgrounds env q) st in
  final r = mkWorld st true
  /\ outcome r = Resolved tt
  /\ (exists code body, responses (trace r) = [(code, body)])
  /\ nexts (trace r) = 1%nat
  /\ lookups (trace r) = (if Js.truthy q then [ESearch q] else []).
Proof.
  cbv zeta. unfold get_playgrounds.
  destruct (search_outcome env q st) as [values|e] eqn:Hs; by_cases'.
  all: repeat split; try reflexivity; eexists _, _; reflexivity.
Qed.

(** X12: a non-empty query is answered 200 with the rows the search
    resolves to, as they come, when there is at least one, and 500 when
    the search rejects. *)
Theorem search_found_or_failed env st q :
  Js.truthy q = true ->
  (forall l, search_outcome env q st = Resolved (Some l) -> l <> [] ->
             responses (trace (run (get_playgrounds env q) st)) = [(CODES.OK, BList l)])
  /\ (forall e, search_outcome env q st = Rejected e ->
                responses (trace (run (get_playgrounds env q) st))
                = [(CODES.INTERNAL_SERVER_ERROR,
                    BMsg [PLit "There was an error trying to load playgrounds during search."])]).
Proof.
  intros Hq. unfold get_playgrounds. split.
  - intros l Hs Hl. destruct l as [|p l]; [congruence|]. by_cases'. reflexivity.
  - intros e Hs. by_cases'. reflexivity.
Qed.

Lemma search_found_or_failed_witness :
  let env := mkEnv (fun _ _ => Resolved (Some [Sample.playground_1])) false false false false
                   (fun _ => 2) (fun _ => Sample.slug_b) false false (fun _ _ => LErr) in
  responses (trace (run (get_playgrounds env (JStr "demo")) Sample.st_one))
  = [(CODES.OK, BList [Sample.playground_1])].
Proof.
  refine (proj1 (search_found_or_failed
                   (mkEnv (fun _ _ => Resolved (Some [Sample.playground_1])) false false false
                          false (fun _ => 2) (fun _ => Sample.slug_b) false false
                          (fun _ _ => LErr))
                   Sample.st_one (JStr "demo") eq_refl) _ eq_refl _).
  discriminate.
Defined.

(** ** Validation, over the whole range *)

(** X13: among the requests whose contents is absent or a string, a
    create enters its transaction exactly when contents is present with 1
    to 16,777,214 code units, an update exactly when moreover the slug has
    21; every other such request gets the 422 run, which makes no store
    call. *)
Theorem validation_ranges env st url_slug b :
  let fits := exists s, b_contents b = Some s /\ 1 <= Js.str_length s <= 16777214 in
  (fits -> hd_error (trace (run (post_playground env b) st)) = Some EBegin)
  /\ (~ fits -> run (post_playground env b) st = post_rejected st)
  /\ (fits /\ Js.str_length url_slug = 21 ->
      hd_error (trace (run (put_playground env url_slug b) st)) = Some EBegin)
  /\ (~ (fits /\ Js.str_length url_slug = 21) ->
      run (put_playground env url_slug b) st = put_rejected st).
Proof.
  cbv zeta.
  assert (Hpost : contents_invalid (b_contents b) = false
                  <-> exists s, b_contents b = Some s /\ 1 <= Js.str_length s <= 16777214).
  { destruct (b_contents b) as [s|]; [|split; [discriminate | intros (s & H & _); discriminate]].
    rewrite contents_invalid_length. unfold Js.str_length. split.
    - intros H. apply orb_false_iff in H as [H0 H1].
      apply Z.eqb_neq in H0. apply Z.ltb_ge in H1. exists s. split; [reflexivity | lia].
    - intros (s' & Hs & Hlen). injection Hs as <-. apply orb_false_iff.
      split; [apply Z.eqb_neq | apply Z.ltb_ge]; lia. }
  assert (Hput : put_invalid url_slug (b_contents b) = false
                 <-> contents_invalid (b_contents b) = false /\ Js.str_length url_slug = 21).
  { destruct (b_contents b) as [s|].
    - rewrite put_invalid_length, contents_invalid_length.
      destruct (Js.str_length url_slug =? 21) eqn:E; cbn.
      + apply Z.eqb_eq in E. tauto.
      + apply Z.eqb_neq in E. split; [discriminate | tauto].
    - unfold put_invalid, contents_invalid. rewrite orb_true_r.
      split; [discriminate | intros [H _]; discriminate]. }
  split; [|split; [|split]].
  - intros Hfits. apply Hpost in Hfits. unfold post_playground. by_cases'; reflexivity.
  - intros Hno. destruct (contents_invalid (b_contents b)) eqn:E;
      [|exfalso; apply Hno, Hpost; reflexivity].
    unfold post_playground. by_cases'. reflexivity.
  - intros [Hfits H21]. apply Hpost in Hfits.
    assert (Hv : put_invalid url_slug (b_contents b) = false) by (apply Hput; auto).
    unfold put_playground. by_cases'; reflexivity.
  - intros Hno. destruct (put_invalid url_slug (b_contents b)) eqn:E.
    + unfold put_playground. by_cases'. reflexivity.
    + exfalso. apply Hno. destruct (proj1 Hput eq_refl) as [E1 E2].
      split; [apply Hpost, E1 | exact E2].
Qed.

Lemma validation_ranges_witness :
  hd_error (trace (run (put_playground Sample.env_ok Sample.slug_a Sample.body_tagged)
                       Sample.st_one)) = Some EBegin
  /\ run (put_playground Sample.env_ok "short" Sample.body_tagged) Sample.st_one
     = put_rejected Sample.st_one.
Proof.
  split.
  - refine (proj1 (proj2 (proj2 (validation_ranges Sample.env_ok Sample.st_one Sample.slug_a
                                   Sample.body_tagged))) _).
    split; [|reflexivity]. eexists. split; [reflexivity|]. vm_compute. split; discriminate.
  - refine (proj2 (proj2 (proj2 (validation_ranges Sample.env_ok Sample.st_one "short"
                                   Sample.body_tagged))) _).
    intros [_ H]. vm_compute in H. discriminate H.
Defined.

(** ** prepareTags, as a list function *)

Lemma well_formed_ids_app l1 l2 :
  well_formed_ids (l1 ++ l2) = (well_formed_ids l1 ++ well_formed_ids l2)%list.
Proof.
  induction l1 as [|t l1 IH]; simpl; [reflexivity|].
  destruct (well_formed_id t); simpl; congruence.
Qed.

Lemma skipped_logs_app l1 l2 :
  skipped_logs (l1 ++ l2) = (skipped_logs l1 ++ skipped_logs l2)%list.
Proof.
  induction l1 as [|t l1 IH]; simpl; [reflexivity|].
  destruct (well_formed_id t); simpl; congruence.
Qed.

(** X14: preparing a list is preparing its parts: the tags of [l1 ++ l2]
    are the tags of [l1] followed by those of [l2], and so are the log
    lines; the empty list gives no tag and no log line. *)
Theorem prepareTags_app (l1 l2 : list JsVal) (w : World) :
  (exists tags1 tags2 logs1 logs2,
      prepareTags l1 w = mkRun (Resolved tags1) w logs1
      /\ prepareTags l2 w = mkRun (Resolved tags2) w logs2
      /\ prepareTags (l1 ++ l2) w
         = mkRun (Resolved (tags1 ++ tags2)%list) w (logs1 ++ logs2)%list)
  /\ prepareTags [] w = mkRun (Resolved []) w [].
Proof.
  split; [|reflexivity].
  exists (mkTag <$> well_formed_ids l1), (mkTag <$> well_formed_ids l2),
    (skipped_logs l1), (skipped_logs l2).
  rewrite !prepareTags_run, well_formed_ids_app, skipped_logs_app, fmap_app.
  repeat split; reflexivity.
Qed.

(** X15: every reference is either kept or logged, never both and never
    lost: the tags returned and the log lines written add up to the
    references supplied; a list of well-formed references is kept whole,
    without a log line. *)
Theorem prepareTags_keeps_or_logs (tagsData : list JsVal) (w : World) :
  exists tags,
    outcome (prepareTags tagsData w) = Resolved tags
    /\ (List.length tags + List.length (trace (prepareTags tagsData w)))%nat
       = List.length tagsData
    /\ (forallb well_formed tagsData = true ->
        List.length tags = List.length tagsData /\ trace (prepareTags tagsData w) = []).
Proof.
  rewrite prepareTags_run. eexists. split; [reflexivity|]. cbn. rewrite length_fmap.
  split.
  - induction tagsData as [|t rest IH]; simpl; [reflexivity|].
    destruct (well_formed_id t); simpl; lia.
  - unfold well_formed. induction tagsData as [|t rest IH]; simpl; [auto|].
    destruct (well_formed_id t); simpl; [|discriminate].
    intros H. destruct (IH H) as [H1 H2]. split; congruence.
Qed.

Lemma prepareTags_keeps_or_logs_witness :
  exists tags,
    outcome (prepareTags Sample.three_tags (mkWorld Sample.st_empty false)) = Resolved tags
    /\ (List.length tags
        + List.length (trace (prepareTags Sample.three_tags (mkWorld Sample.st_empty false))))%nat
       = 3%nat.
Proof.
  destruct (prepareTags_keeps_or_logs Sample.three_tags (mkWorld Sample.st_empty false))
    as (tags & H1 & H2 & _).
  exists tags. split; [exact H1 | exact H2].
Defined.

(** X16: tags sent back as references are prepared into the same tags, in
    the same order, without a log line. *)
Theorem prepareTags_roundtrip (tags : list Tag) (w : World) :
  prepareTags (reference_of <$> tags) w = mkRun (Resolved tags) w [].
Proof.
  rewrite prepareTags_run. f_equal.
  - f_equal. induction tags as [|[n] tags IH]; cbn; [reflexivity|].
    f_equal. exact IH.
  - induction tags as [|[n] tags IH]; cbn; [reflexivity | exact IH].
Qed.

(** ** Legacy GET /api/:id/:version *)

(** X17: the legacy route never writes to the store and always writes one
    response and calls [next] once; for a version that parses it answers
    by what the data module calls back with: 500 on an error, 404 without
    an item, 200 with the item and its contents. *)
Theorem legacy_version_answers env st i version :
  let r := run (legacy_get_version env i version) st in
  final r = mkWorld st true
  /\ outcome r = Resolved tt
  /\ nexts (trace r) = 1%nat
  /\ (exists code body, responses (trace r) = [(code, body)])
  /\ (is_Some (Js.parseInt version) ->
      exists body,
        responses (trace r)
        = [(match getPlayground_outcome env i version with
            | LErr => CODES.INTERNAL_SERVER_ERROR
            | LMissing => CODES.NOT_FOUND
            | LFound _ _ => CODES.OK
            end, body)]
        /\ forall item contents,
            getPlayground_outcome env i version = LFound item contents ->
            body = BItem item contents).
Proof.
  cbv zeta. unfold legacy_get_version.
  destruct (Js.parseInt version) as [n|] eqn:Hp; cbn [Js.isNaN].
  - destruct (getPlayground_outcome env i version) as [| |item contents] eqn:Hg; by_cases'.
    all: rewrite ?Hg; by_cases'.
    all: repeat split; try reflexivity; try (eexists _, _; reflexivity).
    all: intros _; eexists; split; [reflexivity|]; intros item' contents' H;
      first [discriminate H | injection H as <- <-; reflexivity].
  - by_cases'. repeat split; try reflexivity; try (eexists _, _; reflexivity).
    intros [x Hx]. discriminate Hx.
Qed.

(** ** The routes without a transaction *)

Import Plain.

(** X18: the read of a playground by slug makes one lookup, with the slug
    as given and without the length check of the update (which makes no
    lookup at all for a slug that is not 21 long); it writes one response
    and calls [next] once: 500 when the lookup rejects, 404 when it
    resolves to nothing, 200 with the instance found otherwise. *)
Theorem get_by_slug_answers (d : Data) (slug : string) :
  data_calls (get_playground d slug) = [CFindOne slug]
  /\ count_replies (get_playground d slug) = 1%nat
  /\ count_next (get_playground d slug) = 1%nat
  /\ (exists reply,
         reply_of (get_playground d slug)
         = Some (match findOne d slug with
                 | Rejected _ => CODES.INTERNAL_SERVER_ERROR
                 | Resolved value => if Js.truthy value then CODES.OK else CODES.NOT_FOUND
                 end, reply)
         /\ forall value, findOne d slug = Resolved value -> Js.truthy value = true ->
                          reply = RValue value)
  /\ (Js.str_length slug <> 21 ->
      forall env st b, lookups (trace (run (put_playground env slug b) st)) = []).
Proof.
  unfold get_playground. split; [|split; [|split; [|split]]].
  - destruct (findOne d slug) as [v|e]; [destruct (Js.truthy v)|]; reflexivity.
  - destruct (findOne d slug) as [v|e]; [destruct (Js.truthy v)|]; reflexivity.
  - destruct (findOne d slug) as [v|e]; [destruct (Js.truthy v)|]; reflexivity.
  - destruct (findOne d slug) as [v|e]; [destruct (Js.truthy v) eqn:E|]; cbn.
    all: eexists; split; [reflexivity|]; intros v' H Hv'; try discriminate H.
    all: injection H as <-; first [reflexivity | congruence].
  - intros Hlen env st b.
    assert (Hv : put_invalid slug (b_contents b) = true).
    { unfold put_invalid. apply Z.eqb_neq in Hlen. rewrite Hlen.
      destruct (Js.truthy (JStr slug)); [|reflexivity].
      destruct (b_contents b) as [s|]; [|reflexivity].
      destruct (Js.truthy (JStr s)); reflexivity. }
    unfold put_playground. by_cases'. reflexivity.
Qed.

Lemma get_by_slug_answers_witness :
  lookups (trace (run (put_playground Sample.env_ok "short" Sample.body_tagged) Sample.st_one))
  = [].
Proof.
  refine (proj2 (proj2 (proj2 (proj2
            (get_by_slug_answers (mkData (fun _ => Resolved JNull)
                                         (fun _ _ => mkCbArgs JNull JNull JNull)
                                         (fun _ _ _ _ _ _ => mkCbArgs JNull JNull JNull)
                                         (fun _ _ _ _ _ _ _ => mkCbArgs JNull JNull JNull))
                                 "short")))) _ Sample.env_ok Sample.st_one Sample.body_tagged).
  vm_compute. discriminate.
Defined.

(** X19: the legacy read without a version is the read of version 0: it
    asks the data module for version 0, and, when the module treats the
    number 0 like the path segment "0", it answers with the status, the
    item and the contents of [GET /api/:id/0]. *)
Theorem legacy_get_is_version_zero (d : Data) env st (i : string) :
  data_calls (legacy_get d i) = [CGetPlayground i (JNum 0)]
  /\ count_replies (legacy_get d i) = 1%nat
  /\ count_next (legacy_get d i) = 1%nat
  /\ (agrees (getPlayground d i (JNum 0)) (getPlayground_outcome env i "0") ->
      seen_plain (reply_of (legacy_get d i))
      = seen_promise (delivered (trace (run (legacy_get_version env i "0") st)))).
Proof.
  split; [|split; [|split]].
  1-3: unfold legacy_get; cbv zeta;
    destruct (Js.truthy (cb_err (getPlayground d i (JNum 0))));
    [|destruct (Js.truthy (cb_item (getPlayground d i (JNum 0))))]; reflexivity.
  intros Hag. unfold agrees in Hag.
  unfold legacy_get_version. change (Js.parseInt "0") with (Some 0).
  unfold legacy_get. cbv zeta.
  destruct (getPlayground_outcome env i "0") as [| |item contents] eqn:Hg.
  - rewrite Hag. by_cases'. rewrite ?Hg. by_cases'. reflexivity.
  - destruct Hag as [Herr Hitem]. rewrite Herr, Hitem.
    by_cases'. rewrite ?Hg. by_cases'. reflexivity.
  - destruct Hag as (Herr & Hitem & <- & <-). rewrite Herr, Hitem.
    by_cases'. rewrite ?Hg. by_cases'. reflexivity.
Qed.

Lemma legacy_get_is_version_zero_witness :
  let d := mkData (fun _ => Resolved JNull)
                  (fun _ _ => mkCbArgs JNull JNull JNull)
                  (fun _ _ _ _ _ _ => mkCbArgs JNull JNull JNull)
                  (fun _ _ _ _ _ _ _ => mkCbArgs JNull JNull JNull) in
  seen_plain (reply_of (legacy_get d "x1"))
  = seen_promise (delivered (trace (run (legacy_get_version Sample.env_ok "x1" "0")
                                        Sample.st_one))).
Proof.
  refine (proj2 (proj2 (proj2
            (legacy_get_is_version_zero
               (mkData (fun _ => Resolved JNull)
                       (fun _ _ => mkCbArgs JNull JNull JNull)
                       (fun _ _ _ _ _ _ => mkCbArgs JNull JNull JNull)
                       (fun _ _ _ _ _ _ _ => mkCbArgs JNull JNull JNull))
               Sample.env_ok Sample.st_one "x1"))) _).
  split; reflexivity.
Defined.

Lemma get_prop_truthy v k : Js.truthy v = true -> exists x, Js.get_prop v k = Resolved x.
Proof. destruct v; try discriminate; intros _; eexists; reflexivity. Qed.

(** X20: the legacy create asks the data module for nothing when name,
    author or contents is empty, and otherwise for one playground, with the
    two flags false.  It never answers 201: a playground created is
    answered 200 with the item and the contents called back.  When the
    module calls back with neither an error nor an item, reading the id of
    the item throws: no response is written and [next] is not called. *)
Theorem legacy_create_answers (d : Data) (b : LegacyBody) :
  let call := CCreatePlayground (l_name b) (l_author b) (l_isPublic b) (JBool false)
                                (JBool false) (l_contents b) in
  let a := createPlayground d (l_name b) (l_author b) (l_isPublic b) (JBool false)
                            (JBool false) (l_contents b) in
  (forall reply, reply_of (legacy_post d b) <> Some (CODES.CREATED, reply))
  /\ (legacy_invalid b = true ->
      legacy_post d b = legacy_rejected "Failed to save playground, invalid params")
  /\ (legacy_invalid b = false ->
      data_calls (legacy_post d b) = [call]
      /\ (Js.truthy (cb_err a) = true ->
          reply_of (legacy_post d b)
          = Some (CODES.INTERNAL_SERVER_ERROR,
                  RMsg [PLit "There was an error trying to save the playground."])
          /\ count_next (legacy_post d b) = 1%nat)
      /\ (Js.truthy (cb_err a) = false -> Js.truthy (cb_item a) = true ->
          reply_of (legacy_post d b) = Some (CODES.OK, RItem (cb_item a) (cb_contents a))
          /\ count_next (legacy_post d b) = 1%nat)
      /\ (Js.truthy (cb_err a) = false -> cb_item a = JUndefined \/ cb_item a = JNull ->
          legacy_post d b = [call; CThrow TypeError])).
Proof.
  cbv zeta. unfold legacy_post. split; [|split].
  - intros reply. destruct (legacy_invalid b); [discriminate|]. cbn.
    destruct (Js.truthy (cb_err _)); [discriminate|].
    destruct (Js.get_prop _ "id"); discriminate.
  - intros ->. reflexivity.
  - intros ->. split; [|split; [|split]].
    + cbn. destruct (Js.truthy (cb_err _)); [reflexivity|].
      destruct (Js.get_prop _ "id"); reflexivity.
    + intros ->. split; reflexivity.
    + intros -> Hitem. destruct (get_prop_truthy _ "id" Hitem) as [x ->].
      split; reflexivity.
    + intros -> [-> | ->]; reflexivity.
Qed.

Lemma legacy_create_answers_witness :
  let d := mkData (fun _ => Resolved JNull)
                  (fun _ _ => mkCbArgs JNull JNull JNull)
                  (fun _ _ _ _ _ _ => mkCbArgs JNull JNull JNull)
                  (fun _ _ _ _ _ _ _ => mkCbArgs JNull JNull JNull) in
  let b := mkLegacyBody (JStr "demo") (JStr "a") (JBool true) (JStr "console.log(1)") in
  legacy_post d b
  = [CCreatePlayground (JStr "demo") (JStr "a") (JBool true) (JBool false) (JBool false)
                       (JStr "console.log(1)");
     CThrow TypeError].
Proof.
  exact (proj2 (proj2 (proj2 (proj2 (proj2
           (legacy_create_answers
              (mkData (fun _ => Resolved JNull)
                      (fun _ _ => mkCbArgs JNull JNull JNull)
                      (fun _ _ _ _ _ _ => mkCbArgs JNull JNull JNull)
                      (fun _ _ _ _ _ _ _ => mkCbArgs JNull JNull JNull))
              (mkLegacyBody (JStr "demo") (JStr "a") (JBool true) (JStr "console.log(1)"))))
           eq_refl))) eq_refl (or_intror eq_refl)).
Defined.

(** X21: the legacy route for a new version rejects the bodies the legacy
    create rejects, never throws, and always writes one response and calls
    [next] once; when the module calls back with neither an error nor an
    item it answers 404, and with an item 200 with the item and the
    contents. *)
Theorem legacy_new_version_answers (d : Data) (i : string) (b : LegacyBody) :
  let a := createPlaygroundVersion d i (l_name b) (l_author b) (l_isPublic b) (JBool false)
                                   (JBool false) (l_contents b) in
  (forall e, ~ In (CThrow e) (legacy_post_version d i b))
  /\ count_replies (legacy_post_version d i b) = 1%nat
  /\ count_next (legacy_post_version d i b) = 1%nat
  /\ (data_calls (legacy_post_version d i b) = [] <-> data_calls (legacy_post d b) = [])
  /\ (legacy_invalid b = true ->
      legacy_post_version d i b = legacy_rejected "Failed save playground, invalid params")
  /\ (legacy_invalid b = false -> Js.truthy (cb_err a) = false ->
      (Js.truthy (cb_item a) = false ->
       reply_of (legacy_post_version d i b)
       = Some (CODES.NOT_FOUND,
               RMsg [PLit "No playground found with ID: "; PVal (JStr i); PLit "."]))
      /\ (Js.truthy (cb_item a) = true ->
          reply_of (legacy_post_version d i b)
          = Some (CODES.OK, RItem (cb_item a) (cb_contents a)))).
Proof.
  cbv zeta. unfold legacy_post_version, legacy_post.
  destruct (legacy_invalid b) eqn:Hv.
  - repeat split; try reflexivity; try discriminate.
    intros e. cbn. intros [H|[H|[H|[]]]]; discriminate H.
  - destruct (Js.truthy (cb_err (createPlaygroundVersion d i _ _ _ _ _ _))) eqn:Herr.
    + repeat split; try reflexivity; try discriminate.
      intros e. cbn. intros [H|[H|[H|[H|[]]]]]; discriminate H.
    + destruct (Js.truthy (cb_item (createPlaygroundVersion d i _ _ _ _ _ _))) eqn:Hitem.
      * destruct (get_prop_truthy _ "version" Hitem) as [x Hx]. rewrite Hx. cbn.
        repeat split; try reflexivity; try discriminate.
        intros e. cbn. intros [H|[H|[H|[H|[]]]]]; discriminate H.
      * cbn. repeat split; try reflexivity; try discriminate.
        intros e. cbn. intros [H|[H|[H|[H|[]]]]]; discriminate H.
Qed.

Lemma legacy_new_version_answers_witness :
  let d := mkData (fun _ => Resolved JNull)
                  (fun _ _ => mkCbArgs JNull JNull JNull)
                  (fun _ _ _ _ _ _ => mkCbArgs JNull JNull JNull)
                  (fun _ _ _ _ _ _ _ => mkCbArgs JNull JNull JNull) in
  let b := mkLegacyBody (JStr "demo") (JStr "a") (JBool true) (JStr "console.log(1)") in
  reply_of (legacy_post_version d "x1" b)
  = Some (CODES.NOT_FOUND,
          RMsg [PLit "No playground found with ID: "; PVal (JStr "x1"); PLit "."]).
Proof.
  exact (proj1 (proj2 (proj2 (proj2 (proj2 (proj2
           (legacy_new_version_answers
              (mkData (fun _ => Resolved JNull)
                      (fun _ _ => mkCbArgs JNull JNull JNull)
                      (fun _ _ _ _ _ _ => mkCbArgs JNull JNull JNull)
                      (fun _ _ _ _ _ _ _ => mkCbArgs JNull JNull JNull))
              "x1"
              (mkLegacyBody (JStr "demo") (JStr "a") (JBool true) (JStr "console.log(1)")))))))
           eq_refl eq_refl) eq_refl).
Defined.
